(** * Scoped S3 users: [create_s3_user.py] and [delete_s3_user.py]

    A shallow embedding of the two scripts.  A Python [str] is a
    [string] (its characters in order; text outside ASCII is its UTF-8
    bytes, every one of them above 127 and so outside every character
    class used below).  Dictionaries are association lists in insertion
    order, provider calls are answered by an explicit [provider], and
    everything a run does to the outside world is recorded, in order,
    in a list of [event]s. *)

From Stdlib Require Import List String Ascii Bool ZArith DecimalString.
Import ListNotations.
Open Scope string_scope.

(** ** The user-name validator (create_s3_user.py, 203-209) *)

Module Re.

(** The part of Python's [re] syntax that the pattern
    ["^[A-Za-z0-9_-]+$"] uses. *)
Inductive class_item : Type :=
| CRange (lo hi : ascii)
| CChar (c : ascii).

Inductive item : Type :=
| Bol                                   (* ^ *)
| Eol                                   (* $ *)
| ClassPlus (cls : list class_item).    (* [...]+ *)

Definition pattern := list item.

Definition in_item (c : ascii) (i : class_item) : bool :=
  match i with
  | CRange lo hi =>
      (nat_of_ascii lo <=? nat_of_ascii c)%nat
      && (nat_of_ascii c <=? nat_of_ascii hi)%nat
  | CChar d => Ascii.eqb c d
  end.

Definition in_class (cls : list class_item) (c : ascii) : bool :=
  existsb (in_item c) cls.

(** Without [re.MULTILINE], [$] matches at the end of the string and
    also just before a newline that is the last character. *)
Definition at_eol (rest : string) : bool :=
  match rest with
  | EmptyString => true
  | String c EmptyString => Ascii.eqb c "010"
  | _ => false
  end.

(** One or more characters of the class, greedy, giving characters back
    until the rest of the pattern [k] matches. *)
Fixpoint many1 (cls : list class_item) (k : string -> bool) (s : string)
  : bool :=
  match s with
  | EmptyString => false
  | String c s' => in_class cls c && (many1 cls k s' || k s')
  end.

(** [at_start] tells whether the position is the start of the string,
    the only place where [^] matches. *)
Fixpoint match_at (p : pattern) (at_start : bool) (s : string) : bool :=
  match p with
  | [] => true
  | Bol :: p' => at_start && match_at p' at_start s
  | Eol :: p' => at_eol s && match_at p' at_start s
  | ClassPlus cls :: p' => many1 cls (match_at p' false) s
  end.

(** [re.match(p, s)]: a match anchored at the start of [s]; [true]
    stands for a match object and [false] for [None]. *)
Definition re_match (p : pattern) (s : string) : bool := match_at p true s.

End Re.

(** ["^[A-Za-z0-9_-]+$"] *)
Definition user_name_pattern : Re.pattern :=
  [ Re.Bol;
    Re.ClassPlus [Re.CRange "A" "Z"; Re.CRange "a" "z"; Re.CRange "0" "9";
                  Re.CChar "_"; Re.CChar "-"];
    Re.Eol ]%char.

Definition is_valid_user_name (user_name : string) : bool :=
  if Re.re_match user_name_pattern user_name then true else false.

(** The character class as the documentation words it: an ASCII letter,
    a digit, an underscore or a dash. *)
Definition name_char (c : ascii) : bool :=
  let n := nat_of_ascii c in
  ((65 <=? n) && (n <=? 90) || (97 <=? n) && (n <=? 122)
   || (48 <=? n) && (n <=? 57) || (n =? 95) || (n =? 45))%nat.

Fixpoint all_chars (p : ascii -> bool) (s : string) : bool :=
  match s with
  | EmptyString => true
  | String c s' => p c && all_chars p s'
  end.

Definition newline : string := String "010" EmptyString.

(** ** Policy documents (create_s3_user.py, 139-175) *)

(** The values a policy document is made of.  A [JDict] keeps its keys
    in insertion order, as a Python dict does. *)
#[local] Set Warnings "-register-all".
Inductive json : Type :=
| JStr (s : string)
| JList (items : list json)
| JDict (fields : list (string * json)).

Definition dict := list (string * json).

Fixpoint dict_get (key : string) (d : dict) : option json :=
  match d with
  | [] => None
  | (k, v) :: d' => if k =? key then Some v else dict_get key d'
  end.

(** [d[key] = v]: an existing key keeps its place, a new key goes last. *)
Fixpoint dict_set (key : string) (v : json) (d : dict) : dict :=
  match d with
  | [] => [(key, v)]
  | (k, w) :: d' =>
      if k =? key then (k, v) :: d' else (k, w) :: dict_set key v d'
  end.

(** [d.update(other)] *)
Definition dict_update (d other : dict) : dict :=
  fold_left (fun acc kv => dict_set (fst kv) (snd kv) acc) other d.

(** The dictionary [policy_doc] that [create_policy] builds and hands,
    through [json.dumps], to the provider.  The statement is the one
    element of the list under ["Statement"]; for [s3:ListBucket] the
    source updates it in place with the condition. *)
Definition policy_doc (actions bucket_name user_name : string) : json :=
  let resource_arn :=
    if actions =? "s3:GetObject"
    then "arn:aws:s3:::" ++ bucket_name ++ "/" ++ user_name ++ "/*"
    else "arn:aws:s3:::" ++ bucket_name in
  let statement : dict :=
    [ ("Effect", JStr "Allow");
      ("Action", JStr actions);
      ("Resource", JStr resource_arn) ] in
  let statement :=
    if actions =? "s3:ListBucket" then
      let user_folder := user_name ++ "/" in
      let condition : dict :=
        [ ("Condition",
           JDict [ ("StringEquals",
                    JDict [ ("s3:prefix", JList [JStr ""; JStr user_folder]);
                            ("s3:delimiter", JList [JStr "/"]) ]) ]) ] in
      dict_update statement condition
    else statement in
  JDict [ ("Version", JStr "2012-10-17");
          ("Statement", JList [JDict statement]) ].

(** Readers used to state what a document contains. *)
Definition field (key : string) (j : json) : option json :=
  match j with
  | JDict d => dict_get key d
  | _ => None
  end.

Definition first_item (j : json) : option json :=
  match j with
  | JList (x :: _) => Some x
  | _ => None
  end.

Definition and_then {A B} (o : option A) (f : A -> option B) : option B :=
  match o with
  | Some a => f a
  | None => None
  end.

(** [doc["Statement"][0]] *)
Definition statement_of (doc : json) : option json :=
  and_then (field "Statement" doc) first_item.

Definition resource_of (doc : json) : option json :=
  and_then (statement_of doc) (field "Resource").

Definition condition_of (doc : json) : option json :=
  and_then (statement_of doc) (field "Condition").

(** [doc["Statement"][0]["Condition"]["StringEquals"][key]] *)
Definition string_equals_of (key : string) (doc : json) : option json :=
  and_then (and_then (condition_of doc) (field "StringEquals")) (field key).

(** [strip_prefix pre s] is what follows [pre] in [s], when [s] starts
    with [pre]. *)
Fixpoint strip_prefix (pre s : string) : option string :=
  match pre, s with
  | EmptyString, _ => Some s
  | String a pre', String b s' =>
      if Ascii.eqb a b then strip_prefix pre' s' else None
  | String _ _, EmptyString => None
  end.

(** The folder that the condition of a list policy names: the second of
    the two values of [s3:prefix]. *)
Definition listed_folder (doc : json) : option string :=
  match string_equals_of "s3:prefix" doc with
  | Some (JList [JStr _; JStr user_folder]) => Some user_folder
  | _ => None
  end.

(** The key pattern of a get policy: what follows
    [arn:aws:s3:::{bucket_name}/] in its resource. *)
Definition object_pattern (bucket_name : string) (doc : json) : option string :=
  match resource_of doc with
  | Some (JStr resource_arn) =>
      strip_prefix ("arn:aws:s3:::" ++ bucket_name ++ "/") resource_arn
  | _ => None
  end.

(** ** The outside world *)

(** What the provider hands back: IAM users, policies and keys, as far
    as the scripts read them. *)
Module User.
Record t : Type := { name : string; user_name : string }.
End User.

Module Policy.
Record t : Type := { policy_name : string; arn : string }.
End Policy.

Module Key.
Record t : Type := { id : string; secret : string }.
End Key.

(** An exception object: [type(e).__name__], [str(e)] and whether it is
    a botocore [ClientError].  Every exception a call raises is an
    [Exception]; [SystemExit] is not one and is the [Exit] result below. *)
Record exn : Type :=
  { exn_type : string; exn_str : string; is_client_error : bool }.

Inductive level : Type := INFO | WARNING | ERROR.

(** The calls that leave the process: the helpers of [s3_user_utils],
    [iam.create_policy], the csv file and the bucket's object
    collection. *)
Inductive op : Type :=
| BucketExists (bucket_name : string)
| ListUsers
| CreateUser (user_name : string)
| ListPolicies (scope : string)
| IamCreatePolicy (PolicyName Description : string) (PolicyDocument : json)
| AttachPolicy (user_name policy_arn : string)
| CreateKey (user_name : string)
| WriteCsv (csv_filename : string) (rows : list (list string))
| ListKeys (user_name : string)
| DeleteKey (user_name key_id : string)
| DetachPolicy (user_name policy_arn : string)
| DeletePolicy (policy_arn : string)
| DeleteUser (user_name : string)
| ObjectsFilter (bucket_name Prefix : string)
| ObjectsFilterDelete (bucket_name Prefix : string).

Inductive event : Type :=
| Call (o : op)
| Log (l : level) (message : string)
| Print (line : string)
| Usage (to_stderr : bool).   (* the usage or help text argparse writes *)

Definition history := list event.

Inductive outcome (A : Type) : Type :=
| Returns (v : A)
| Raises (e : exn).
Arguments Returns {A} v.
Arguments Raises {A} e.

(** The provider answers each call, knowing everything that happened
    before it, so that the same call may be answered differently the
    second time. *)
Record provider : Type :=
  { on_bucket_exists : history -> string -> outcome bool;
    on_list_users : history -> outcome (list User.t);
    on_create_user : history -> string -> outcome User.t;
    on_list_policies : history -> string -> outcome (list Policy.t);
    on_iam_create_policy : history -> string -> string -> json -> outcome Policy.t;
    on_attach_policy : history -> string -> string -> outcome unit;
    on_create_key : history -> string -> outcome (option Key.t);
    on_write_csv : history -> string -> list (list string) -> outcome unit;
    on_list_keys : history -> string -> outcome (list Key.t);
    on_delete_key : history -> string -> string -> outcome unit;
    on_detach_policy : history -> string -> string -> outcome unit;
    on_delete_policy : history -> string -> outcome unit;
    on_delete_user : history -> string -> outcome unit;
    on_objects_filter : history -> string -> string -> outcome (list string);
    on_objects_filter_delete : history -> string -> string -> outcome unit }.

(** ** The monad of a script run *)

(** A computation returns, raises an [Exception], or leaves the process
    through [exit(status)]. *)
Inductive result (A : Type) : Type :=
| Val (a : A)
| Raise (e : exn)
| Exit (status : Z).
Arguments Val {A} a.
Arguments Raise {A} e.
Arguments Exit {A} status.

Definition M (A : Type) : Type := provider -> history -> history * result A.

Definition ret {A} (a : A) : M A := fun _ h => (h, Val a).

Definition bind {A B} (m : M A) (f : A -> M B) : M B :=
  fun p h =>
    match m p h with
    | (h', Val a) => f a p h'
    | (h', Raise e) => (h', Raise e)
    | (h', Exit s) => (h', Exit s)
    end.

Declare Scope script_scope.
Delimit Scope script_scope with script.
Notation "x <- m ;; k" := (bind m (fun x => k))
  (at level 61, m at next level, right associativity) : script_scope.
Notation "m ;; k" := (bind m (fun _ => k))
  (at level 61, right associativity) : script_scope.
Open Scope script_scope.

Definition emit (e : event) : M unit := fun _ h => ((h ++ [e])%list, Val tt).

Definition call {A} (o : op) (answer : provider -> history -> outcome A) : M A :=
  fun p h =>
    ((h ++ [Call o])%list,
     match answer p h with
     | Returns v => Val v
     | Raises e => Raise e
     end).

Definition raise {A} (e : exn) : M A := fun _ h => (h, Raise e).

(** [exit(status)] raises [SystemExit], which no [except Exception]
    catches. *)
Definition exit {A} (status : Z) : M A := fun _ h => (h, Exit status).

Definition when (b : bool) (m : M unit) : M unit := if b then m else ret tt.

(** [for x in xs: body(x)] *)
Fixpoint for_each {A} (xs : list A) (body : A -> M unit) : M unit :=
  match xs with
  | [] => ret tt
  | x :: xs' => body x ;; for_each xs' body
  end.

(** A [for] loop that updates a local variable. *)
Fixpoint for_fold {A S} (xs : list A) (s : S) (body : S -> A -> M S) : M S :=
  match xs with
  | [] => ret s
  | x :: xs' => s' <- body s x ;; for_fold xs' s' body
  end.

(** [try: body / except Exception as e: handler(e) / else: orelse] *)
Definition try_except_else {A} (body : M A) (handler : exn -> M unit)
  (orelse : M unit) : M unit :=
  fun p h =>
    match body p h with
    | (h', Val _) => orelse p h'
    | (h', Raise e) => handler e p h'
    | (h', Exit s) => (h', Exit s)
    end.

(** [try: body / except ClientError: handler; raise / else: return] *)
Definition try_except_client_error {A} (body : M A) (handler : M unit) : M A :=
  fun p h =>
    match body p h with
    | (h', Raise e) =>
        if is_client_error e then (handler ;; raise e) p h' else (h', Raise e)
    | other => other
    end.


(** *** The calls *)

Definition bucket_exists (bucket_name : string) : M bool :=
  call (BucketExists bucket_name) (fun p h => on_bucket_exists p h bucket_name).
Definition list_users : M (list User.t) :=
  call ListUsers on_list_users.
Definition create_user (user_name : string) : M User.t :=
  call (CreateUser user_name) (fun p h => on_create_user p h user_name).
Definition list_policies (scope : string) : M (list Policy.t) :=
  call (ListPolicies scope) (fun p h => on_list_policies p h scope).
Definition iam_create_policy (PolicyName Description : string)
  (PolicyDocument : json) : M Policy.t :=
  call (IamCreatePolicy PolicyName Description PolicyDocument)
       (fun p h => on_iam_create_policy p h PolicyName Description PolicyDocument).
Definition attach_policy (user_name policy_arn : string) : M unit :=
  call (AttachPolicy user_name policy_arn)
       (fun p h => on_attach_policy p h user_name policy_arn).
Definition create_key (user_name : string) : M (option Key.t) :=
  call (CreateKey user_name) (fun p h => on_create_key p h user_name).
Definition write_csv (csv_filename : string) (rows : list (list string)) : M unit :=
  call (WriteCsv csv_filename rows) (fun p h => on_write_csv p h csv_filename rows).
Definition list_keys (user_name : string) : M (list Key.t) :=
  call (ListKeys user_name) (fun p h => on_list_keys p h user_name).
Definition delete_key (user_name key_id : string) : M unit :=
  call (DeleteKey user_name key_id) (fun p h => on_delete_key p h user_name key_id).
Definition detach_policy (user_name policy_arn : string) : M unit :=
  call (DetachPolicy user_name policy_arn)
       (fun p h => on_detach_policy p h user_name policy_arn).
Definition delete_policy (policy_arn : string) : M unit :=
  call (DeletePolicy policy_arn) (fun p h => on_delete_policy p h policy_arn).
Definition delete_user (user_name : string) : M unit :=
  call (DeleteUser user_name) (fun p h => on_delete_user p h user_name).
Definition objects_filter (bucket_name Prefix : string) : M (list string) :=
  call (ObjectsFilter bucket_name Prefix)
       (fun p h => on_objects_filter p h bucket_name Prefix).
Definition objects_filter_delete (bucket_name Prefix : string) : M unit :=
  call (ObjectsFilterDelete bucket_name Prefix)
       (fun p h => on_objects_filter_delete p h bucket_name Prefix).

Definition logger_info (message : string) : M unit := emit (Log INFO message).
Definition logger_warning (message : string) : M unit := emit (Log WARNING message).
Definition logger_error (message : string) : M unit := emit (Log ERROR message).
Definition print (line : string) : M unit := emit (Print line).

(** [exit_program], the same in both scripts. *)
Definition exit_program {A} (message : string) : M A :=
  logger_error ("Exiting. " ++ message) ;;
  print ("ERROR. Exiting. " ++ message) ;;
  exit 0.

(** [parser.parse_args()] with [-b] and [-u] both [required=True]:
    argparse hands back the two values, or ends the process itself, with
    status 2 after reporting a command line it rejects (a required
    option is missing) and with status 0 after printing the help. *)
Inductive parsed_args : Type :=
| Namespace (bucket_name user_name : string)
| UsageError
| HelpRequested.



(** ** The scripts *)

Section Scripts.

(** [s3_user_utils.user_policy_name(user_name, kind)], the name of a
    user's ['list'] or ['get'] policy; Python's [repr] of a string and
    [str] of a dictionary, which only shape log lines. *)
Variable user_policy_name : string -> string -> string.
Variable repr : string -> string.
Variable str_of_dict : json -> string.

(** *** create_s3_user.py *)

(** [logger.exception] writes its message at level ERROR. *)
Definition create_policy (name description actions bucket_name user_name : string)
  : M Policy.t :=
  let policy_doc := policy_doc actions bucket_name user_name in
  logger_info ("Policy doc: " ++ str_of_dict policy_doc) ;;
  try_except_client_error
    (policy <- iam_create_policy name description policy_doc ;;
     logger_info ("Created policy " ++ policy.(Policy.arn)) ;;
     ret policy)
    (logger_error ("Couldn't create policy " ++ name)).

(** The loop sets its flag at the first policy of that name and stops:
    the flag is whether some listed policy has the name. *)
Definition policy_exists (policy_name : string) : M bool :=
  policies <- list_policies "Local" ;;
  ret (existsb (fun policy => policy_name =? policy.(Policy.policy_name))
               policies).

Definition create_and_add_policies (user : User.t) (bucket_name : string) : M unit :=
  logger_info ("Creating list and get policies for bucket " ++ bucket_name) ;;
  (* the list policy *)
  let policy_name := user_policy_name user.(User.user_name) "list" in
  let policy_description := "Grant permission to list bucket for user folder" in
  let action := "s3:ListBucket" in
  exists_ <- policy_exists policy_name ;;
  when exists_
    (exit_program ("Cannot create policy because it already exists: " ++ policy_name)) ;;
  list_policy <- create_policy policy_name policy_description
                   action bucket_name user.(User.name) ;;
  attach_policy user.(User.name) list_policy.(Policy.arn) ;;
  (* the get policy *)
  let policy_name := user_policy_name user.(User.user_name) "get" in
  let policy_description := "Grant permission to get objects from users folder" in
  let action := "s3:GetObject" in
  exists_ <- policy_exists policy_name ;;
  when exists_
    (exit_program ("Cannot create policy because it already exists: " ++ policy_name)) ;;
  get_policy <- create_policy policy_name policy_description
                  action bucket_name user.(User.name) ;;
  attach_policy user.(User.name) get_policy.(Policy.arn).

Definition write_keys_to_csv (user_name : string) (key_pair : option Key.t) : M unit :=
  match key_pair with
  | None =>
      exit_program ("No keys available to save to csv for user " ++ user_name)
  | Some key_pair =>
      let key_info :=
        [ ["Access key ID"; "Secret access key"];
          [key_pair.(Key.id); key_pair.(Key.secret)] ] in
      let csv_filename := user_name ++ "_accessKeys.csv" in
      write_csv csv_filename key_info ;;
      logger_info ("Wrote keys to file " ++ csv_filename ++ ".")
  end.

(** What both scripts do with an exception that reaches their
    [except Exception as e]. *)
Definition report_exception (e : exn) : M unit :=
  let error_message :=
    "Error of type " ++ exn_type e ++ " occurred:" ++ repr (exn_str e) in
  logger_error error_message ;;
  exit_program error_message.

(** [create_s3_user] from line 49 on, given what [parser.parse_args()]
    made of the command line; [from_start] puts the log set-up of lines
    36-38 before it. *)
Definition create_s3_user (args : parsed_args) : M unit :=
  match args with
  | UsageError => emit (Usage true) ;; exit 2
  | HelpRequested => emit (Usage false) ;; exit 0
  | Namespace bucket_name user_name =>
      logger_info ("Creating iam-user " ++ user_name
                   ++ " for bucket " ++ bucket_name) ;;
      try_except_else
        (exists_ <- bucket_exists bucket_name ;;
         when (negb exists_)
           (exit_program ("Bucket does not exist: " ++ bucket_name)) ;;
         when (negb (is_valid_user_name user_name))
           (exit_program ("Invalid user name: " ++ user_name
              ++ ". Only letters, numbers, underscores, and dashes are allowed.")) ;;
         users <- list_users ;;
         for_each users (fun existing_user =>
           when (user_name =? existing_user.(User.name))
             (exit_program ("This user already exists in the account: "
                            ++ user_name))) ;;
         user <- create_user user_name ;;
         create_and_add_policies user bucket_name ;;
         key_pair <- create_key user_name ;;
         write_keys_to_csv user_name key_pair)
        report_exception
        (print "Success!")
  end.

(** *** delete_s3_user.py *)

(** A count as an f-string writes it. *)
Definition decimal (n : nat) : string := NilEmpty.string_of_uint (Nat.to_uint n).

(** [delete_s3_user] from line 42 on, given what [parser.parse_args()]
    made of the command line; [from_start] puts the log set-up of lines
    29-31 before it. *)
Definition delete_s3_user (args : parsed_args) : M unit :=
  match args with
  | UsageError => emit (Usage true) ;; exit 2
  | HelpRequested => emit (Usage false) ;; exit 0
  | Namespace bucket_name user_name =>
      logger_info ("Deleting iam-user " ++ user_name
                   ++ " for bucket " ++ bucket_name ++ ".") ;;
      try_except_else
        (all_keys_for_user <- list_keys user_name ;;
         match all_keys_for_user with
         | _ :: _ =>
             for_each all_keys_for_user (fun key =>
               logger_info ("Deleting key " ++ key.(Key.id)
                            ++ " for user " ++ user_name ++ ".") ;;
               delete_key user_name key.(Key.id))
         | [] =>
             logger_warning ("No access keys found for user " ++ user_name ++ ".")
         end ;;
         listed_policies <- list_policies "Local" ;;
         let user_policy_names :=
           [ user_policy_name user_name "list";
             user_policy_name user_name "get" ] in
         for_each user_policy_names (fun user_policy_name =>
           found_policy <-
             for_fold listed_policies false (fun found_policy policy =>
               if policy.(Policy.policy_name) =? user_policy_name then
                 logger_info ("Deleting policy " ++ user_policy_name
                              ++ " for user " ++ user_name ++ ".") ;;
                 detach_policy user_name policy.(Policy.arn) ;;
                 delete_policy policy.(Policy.arn) ;;
                 ret true
               else ret found_policy) ;;
           when (negb found_policy)
             (logger_warning ("Cannot find policy to remove: "
                              ++ user_policy_name ++ "."))) ;;
         logger_info ("Deleting user " ++ user_name) ;;
         delete_user user_name ;;
         exists_ <- bucket_exists bucket_name ;;
         when (negb exists_)
           (exit_program ("Bucket does not exist: " ++ bucket_name)) ;;
         logger_info ("Deleting objects for user " ++ user_name
                      ++ " in bucket " ++ bucket_name ++ ".") ;;
         let prefix := user_name ++ "/" in
         keys <- objects_filter bucket_name prefix ;;
         let user_object_count := List.length keys in
         if (0 <? user_object_count)%nat then
           logger_info ("Number of ojects to delete: "
                        ++ decimal user_object_count) ;;
           objects_filter_delete bucket_name prefix
         else
           logger_warning ("No objects found for user " ++ user_name
                           ++ " in bucket " ++ bucket_name ++ "."))
        report_exception
        (print "Success!")
  end.

End Scripts.

(** ** Reading a history *)

(** The lines a run wrote with [print], in order. *)
Fixpoint printed (h : history) : list string :=
  match h with
  | [] => []
  | Print line :: h' => line :: printed h'
  | _ :: h' => printed h'
  end.

(** The calls that change something: in the account, in the bucket or
    on the local disk. *)
Definition changes_state (o : op) : bool :=
  match o with
  | BucketExists _ | ListUsers | ListPolicies _ | ListKeys _
  | ObjectsFilter _ _ => false
  | CreateUser _ | IamCreatePolicy _ _ _ | AttachPolicy _ _ | CreateKey _
  | WriteCsv _ _ | DeleteKey _ _ | DetachPolicy _ _ | DeletePolicy _
  | DeleteUser _ | ObjectsFilterDelete _ _ => true
  end.

Definition is_change (e : event) : bool :=
  match e with
  | Call o => changes_state o
  | _ => false
  end.

(** A listing or a deletion of stored objects stays inside [bucket_name]
    and under [Prefix]; every other event passes. *)
Definition storage_scoped (bucket_name Prefix : string) (e : event) : Prop :=
  match e with
  | Call (ObjectsFilter b p) | Call (ObjectsFilterDelete b p) =>
      b = bucket_name /\ p = Prefix
  | _ => True
  end.

(** A computation is [tidy] when every event it adds satisfies [ok], it
    prints nothing as long as it returns or raises, and it leaves the
    process only the way [exit_program] does: one error line printed,
    status 0. *)
Definition tidy (ok : event -> Prop) {A} (m : M A) : Prop :=
  forall p h, exists t,
    fst (m p h) = (h ++ t)%list /\ Forall ok t /\
    match snd (m p h) with
    | Exit status =>
        status = 0%Z /\
        exists message, printed t = ["ERROR. Exiting. " ++ message]
    | _ => printed t = []
    end.

(** The predicate on events that asks nothing. *)
Definition anything (_ : event) : Prop := True.

(** How a whole run may end: to its end with the one line [Success!], or
    through [exit(0)] with the one line [ERROR. Exiting. ...]. *)
Definition ends_well (t : history) (r : result unit) : Prop :=
  (r = Val tt /\ printed t = ["Success!"]) \/
  (r = Exit 0 /\ exists message, printed t = ["ERROR. Exiting. " ++ message]).

(** What [delete_s3_user] does up to the bucket check when the user has
    no keys and no policy of either name is listed. *)
Definition absences_tolerated (user_policy_name : string -> string -> string)
  (B U : string) : history :=
  [ Log INFO ("Deleting iam-user " ++ U ++ " for bucket " ++ B ++ ".");
    Call (ListKeys U);
    Log WARNING ("No access keys found for user " ++ U ++ ".");
    Call (ListPolicies "Local");
    Log WARNING ("Cannot find policy to remove: "
                 ++ user_policy_name U "list" ++ ".");
    Log WARNING ("Cannot find policy to remove: "
                 ++ user_policy_name U "get" ++ ".");
    Log INFO ("Deleting user " ++ U);
    Call (DeleteUser U);
    Call (BucketExists B) ].

(** The calls of a history, in order. *)
Fixpoint calls (h : history) : list op :=
  match h with
  | [] => []
  | Call o :: h' => o :: calls h'
  | _ :: h' => calls h'
  end.

(** What a run of [create_s3_user] for bucket [B] and user [U] may
    call: the bucket check on [B], the user and policy listings, the
    creation of user [U], the registration of one of the two documents
    under the name and description that go with it (for the user object
    [user] that the provider handed back), an attachment, a key for [U],
    and the csv file of [U] with a header row and one key row.  No other
    call passes; log and output lines always do. *)
Definition create_calls (user_policy_name : string -> string -> string)
  (B U : string) (e : event) : Prop :=
  match e with
  | Call (BucketExists bucket_name) => bucket_name = B
  | Call ListUsers => True
  | Call (CreateUser user_name) => user_name = U
  | Call (ListPolicies scope) => scope = "Local"
  | Call (IamCreatePolicy PolicyName Description PolicyDocument) =>
      exists user : User.t,
        (PolicyName = user_policy_name user.(User.user_name) "list" /\
         Description = "Grant permission to list bucket for user folder" /\
         PolicyDocument = policy_doc "s3:ListBucket" B user.(User.name))
        \/
        (PolicyName = user_policy_name user.(User.user_name) "get" /\
         Description = "Grant permission to get objects from users folder" /\
         PolicyDocument = policy_doc "s3:GetObject" B user.(User.name))
  | Call (AttachPolicy _ _) => True
  | Call (CreateKey user_name) => user_name = U
  | Call (WriteCsv csv_filename rows) =>
      csv_filename = U ++ "_accessKeys.csv" /\
      exists key_pair : Key.t,
        rows = [ ["Access key ID"; "Secret access key"];
                 [key_pair.(Key.id); key_pair.(Key.secret)] ]
  | Call _ => False
  | _ => True
  end.

(** What a run of [delete_s3_user] for bucket [B] and user [U] may
    call: listings and deletions of keys of [U], the listing of local
    policies, detachments from [U], deletions of policies, the deletion
    of [U], the bucket check on [B], and listings and deletions of the
    objects of [B] under [U/].  No other call passes. *)
Definition delete_calls (B U : string) (e : event) : Prop :=
  match e with
  | Call (ListKeys user_name) => user_name = U
  | Call (DeleteKey user_name _) => user_name = U
  | Call (ListPolicies scope) => scope = "Local"
  | Call (DetachPolicy user_name _) => user_name = U
  | Call (DeletePolicy _) => True
  | Call (DeleteUser user_name) => user_name = U
  | Call (BucketExists bucket_name) => bucket_name = B
  | Call (ObjectsFilter bucket_name Prefix)
  | Call (ObjectsFilterDelete bucket_name Prefix) =>
      bucket_name = B /\ Prefix = U ++ "/"
  | Call _ => False
  | _ => True
  end.

(** The policies of a listing that bear one of two names. *)
Definition named (n1 n2 : string) (policies : list Policy.t) : list Policy.t :=
  filter (fun policy => (policy.(Policy.policy_name) =? n1)
                        || (policy.(Policy.policy_name) =? n2)) policies.

(** A detachment or a deletion of a policy concerns one of [allowed],
    and a detachment is from user [U]. *)
Definition removes_only (U : string) (allowed : list Policy.t) (e : event)
  : Prop :=
  match e with
  | Call (DetachPolicy user_name policy_arn) =>
      user_name = U /\ In policy_arn (map Policy.arn allowed)
  | Call (DeletePolicy policy_arn) => In policy_arn (map Policy.arn allowed)
  | _ => True
  end.

(** The calls that remove the policies named [wanted] of a listing:
    for each of them, in the order of the listing, a detachment from
    [U] and then the deletion. *)
Definition removals (U wanted : string) (policies : list Policy.t) : list op :=
  flat_map (fun policy =>
              if policy.(Policy.policy_name) =? wanted
              then [ DetachPolicy U policy.(Policy.arn);
                     DeletePolicy policy.(Policy.arn) ]
              else []) policies.

(** With provider [p], every event that [m] adds satisfies [ok]. *)
Definition emits_at (ok : event -> Prop) (p : provider) {A} (m : M A) : Prop :=
  forall h, exists t, fst (m p h) = (h ++ t)%list /\ Forall ok t.

(** The exception in an answer, if it is one. *)
Definition raises_of {A} (answer : outcome A) : option exn :=
  match answer with
  | Raises e => Some e
  | Returns _ => None
  end.

(** The exception, if any, with which provider [p] answers the call [o]
    made after history [h]. *)
Definition raised (p : provider) (h : history) (o : op) : option exn :=
  match o with
  | BucketExists bucket_name => raises_of (on_bucket_exists p h bucket_name)
  | ListUsers => raises_of (on_list_users p h)
  | CreateUser user_name => raises_of (on_create_user p h user_name)
  | ListPolicies scope => raises_of (on_list_policies p h scope)
  | IamCreatePolicy PolicyName Description PolicyDocument =>
      raises_of (on_iam_create_policy p h PolicyName Description PolicyDocument)
  | AttachPolicy user_name policy_arn =>
      raises_of (on_attach_policy p h user_name policy_arn)
  | CreateKey user_name => raises_of (on_create_key p h user_name)
  | WriteCsv csv_filename rows => raises_of (on_write_csv p h csv_filename rows)
  | ListKeys user_name => raises_of (on_list_keys p h user_name)
  | DeleteKey user_name key_id => raises_of (on_delete_key p h user_name key_id)
  | DetachPolicy user_name policy_arn =>
      raises_of (on_detach_policy p h user_name policy_arn)
  | DeletePolicy policy_arn => raises_of (on_delete_policy p h policy_arn)
  | DeleteUser user_name => raises_of (on_delete_user p h user_name)
  | ObjectsFilter bucket_name Prefix =>
      raises_of (on_objects_filter p h bucket_name Prefix)
  | ObjectsFilterDelete bucket_name Prefix =>
      raises_of (on_objects_filter_delete p h bucket_name Prefix)
  end.

Definition is_log (e : event) : Prop :=
  match e with
  | Log _ _ => True
  | _ => False
  end.

Definition is_call (e : event) : Prop :=
  match e with
  | Call _ => True
  | _ => False
  end.

(** Once the provider has raised at a call of [m], [m] raises that
    exception, and what it adds after the call is log lines only. *)
Definition stops_at_raise {A} (m : M A) : Prop :=
  forall p h, exists t,
    fst (m p h) = (h ++ t)%list /\
    forall pre o rest e,
      t = (pre ++ Call o :: rest)%list ->
      raised p (h ++ pre)%list o = Some e ->
      snd (m p h) = Raise e /\ Forall is_log rest.

(** The histories of a run of [create_s3_user] that comes to its end,
    at the moments when it asks the provider for the user, for the list
    policy, for the get policy and for the key, and at its end; each is
    made of the one before and of what the provider answered. *)
Definition at_create_user (B U : string) : history :=
  [ Log INFO ("Creating iam-user " ++ U ++ " for bucket " ++ B);
    Call (BucketExists B);
    Call ListUsers ].

Definition at_list_policy (str_of_dict : json -> string) (B U : string)
  (user : User.t) : history :=
  (at_create_user B U
   ++ [ Call (CreateUser U);
        Log INFO ("Creating list and get policies for bucket " ++ B);
        Call (ListPolicies "Local");
        Log INFO ("Policy doc: "
                  ++ str_of_dict
                       (policy_doc "s3:ListBucket" B user.(User.name))) ])%list.

Definition at_get_policy (user_policy_name : string -> string -> string)
  (str_of_dict : json -> string) (B U : string) (user : User.t)
  (list_policy : Policy.t) : history :=
  (at_list_policy str_of_dict B U user
   ++ [ Call (IamCreatePolicy
                (user_policy_name user.(User.user_name) "list")
                "Grant permission to list bucket for user folder"
                (policy_doc "s3:ListBucket" B user.(User.name)));
        Log INFO ("Created policy " ++ list_policy.(Policy.arn));
        Call (AttachPolicy user.(User.name) list_policy.(Policy.arn));
        Call (ListPolicies "Local");
        Log INFO ("Policy doc: "
                  ++ str_of_dict
                       (policy_doc "s3:GetObject" B user.(User.name))) ])%list.

Definition at_create_key (user_policy_name : string -> string -> string)
  (str_of_dict : json -> string) (B U : string) (user : User.t)
  (list_policy get_policy : Policy.t) : history :=
  (at_get_policy user_policy_name str_of_dict B U user list_policy
   ++ [ Call (IamCreatePolicy
                (user_policy_name user.(User.user_name) "get")
                "Grant permission to get objects from users folder"
                (policy_doc "s3:GetObject" B user.(User.name)));
        Log INFO ("Created policy " ++ get_policy.(Policy.arn));
        Call (AttachPolicy user.(User.name) get_policy.(Policy.arn)) ])%list.

Definition provisioned (user_policy_name : string -> string -> string)
  (str_of_dict : json -> string) (B U : string) (user : User.t)
  (list_policy get_policy : Policy.t) (key_pair : Key.t) : history :=
  (at_create_key user_policy_name str_of_dict B U user list_policy get_policy
   ++ [ Call (CreateKey U);
        Call (WriteCsv (U ++ "_accessKeys.csv")
                [ ["Access key ID"; "Secret access key"];
                  [key_pair.(Key.id); key_pair.(Key.secret)] ]);
        Log INFO ("Wrote keys to file " ++ (U ++ "_accessKeys.csv") ++ ".");
        Print "Success!" ])%list.

(** What the step on keys of [delete_s3_user] adds when every deletion
    is accepted: a warning if there is no key, and otherwise for each
    key, in the order of the listing, a log line and its deletion. *)
Definition key_events (U : string) (keys : list Key.t) : history :=
  match keys with
  | [] => [ Log WARNING ("No access keys found for user " ++ U ++ ".") ]
  | _ :: _ =>
      flat_map (fun key =>
                  [ Log INFO ("Deleting key " ++ key.(Key.id)
                              ++ " for user " ++ U ++ ".");
                    Call (DeleteKey U key.(Key.id)) ]) keys
  end.

(** What the search for the policies named [wanted] adds when every
    call is accepted: for each listed policy of that name, in the order
    of the listing, a log line, the detachment from [U] and the
    deletion; and a warning at the end if the listing had none. *)
Definition removal_events (U wanted : string) (policies : list Policy.t)
  : history :=
  (flat_map (fun policy =>
               if policy.(Policy.policy_name) =? wanted
               then [ Log INFO ("Deleting policy " ++ wanted
                                ++ " for user " ++ U ++ ".");
                      Call (DetachPolicy U policy.(Policy.arn));
                      Call (DeletePolicy policy.(Policy.arn)) ]
               else []) policies
   ++ if existsb (fun policy => policy.(Policy.policy_name) =? wanted) policies
      then []
      else [ Log WARNING ("Cannot find policy to remove: " ++ wanted ++ ".") ])%list.

(** The histories of a run of [delete_s3_user] that comes to its end,
    at the moments when it asks the provider for the keys, for the
    policies and for the objects, and at its end; each is made of the
    one before and of what the provider answered. *)
Definition at_list_keys (B U : string) : history :=
  [ Log INFO ("Deleting iam-user " ++ U ++ " for bucket " ++ B ++ ".") ].

Definition at_list_policies (B U : string) (keys : list Key.t) : history :=
  (at_list_keys B U ++ [Call (ListKeys U)] ++ key_events U keys)%list.

Definition at_objects_filter (user_policy_name : string -> string -> string)
  (B U : string) (keys : list Key.t) (policies : list Policy.t) : history :=
  (at_list_policies B U keys
   ++ [Call (ListPolicies "Local")]
   ++ removal_events U (user_policy_name U "list") policies
   ++ removal_events U (user_policy_name U "get") policies
   ++ [ Log INFO ("Deleting user " ++ U);
        Call (DeleteUser U);
        Call (BucketExists B);
        Log INFO ("Deleting objects for user " ++ U
                  ++ " in bucket " ++ B ++ ".") ])%list.

Definition deprovisioned (user_policy_name : string -> string -> string)
  (B U : string) (keys : list Key.t) (policies : list Policy.t)
  (objects : list string) : history :=
  (at_objects_filter user_policy_name B U keys policies
   ++ [Call (ObjectsFilter B (U ++ "/"))]
   ++ match objects with
      | [] => [ Log WARNING ("No objects found for user " ++ U
                             ++ " in bucket " ++ B ++ ".") ]
      | _ :: _ =>
          [ Log INFO ("Number of ojects to delete: "
                      ++ decimal (List.length objects));
            Call (ObjectsFilterDelete B (U ++ "/")) ]
      end
   ++ [Print "Success!"])%list.

(** ** A provider for examples *)

(** The policy names of the kind the documentation gives:
    [{name}-list], [{name}-get]. *)
Definition dashed_policy_name (user_name kind : string) : string :=
  user_name ++ "-" ++ kind.

Definition quoted (s : string) : string := "'" ++ s ++ "'".

Definition elided (_ : json) : string := "{...}".

Definition dave : User.t := {| User.name := "dave"; User.user_name := "dave" |}.

(** An account that never raises: the bucket exists or not, and the
    users, local policies, keys and stored objects are the given ones
    at every call. *)
Definition steady (bucket : bool) (users : list User.t) (policies : list Policy.t)
  (keys : list Key.t) (objects : list string) : provider :=
  {| on_bucket_exists := fun _ _ => Returns bucket;
     on_list_users := fun _ => Returns users;
     on_create_user := fun _ n => Returns {| User.name := n; User.user_name := n |};
     on_list_policies := fun _ _ => Returns policies;
     on_iam_create_policy := fun _ n _ _ =>
       Returns {| Policy.policy_name := n;
                  Policy.arn := "arn:aws:iam::1:policy/" ++ n |};
     on_attach_policy := fun _ _ _ => Returns tt;
     on_create_key := fun _ _ => Returns (Some {| Key.id := "AKIA"; Key.secret := "s3cr3t" |});
     on_write_csv := fun _ _ _ => Returns tt;
     on_list_keys := fun _ _ => Returns keys;
     on_delete_key := fun _ _ _ => Returns tt;
     on_detach_policy := fun _ _ _ => Returns tt;
     on_delete_policy := fun _ _ => Returns tt;
     on_delete_user := fun _ _ => Returns tt;
     on_objects_filter := fun _ _ _ => Returns objects;
     on_objects_filter_delete := fun _ _ _ => Returns tt |}.

(** A provider that knows nothing: every call raises [e]. *)
Definition refusing (e : exn) : provider :=
  {| on_bucket_exists := fun _ _ => Raises e;
     on_list_users := fun _ => Raises e;
     on_create_user := fun _ _ => Raises e;
     on_list_policies := fun _ _ => Raises e;
     on_iam_create_policy := fun _ _ _ _ => Raises e;
     on_attach_policy := fun _ _ _ => Raises e;
     on_create_key := fun _ _ => Raises e;
     on_write_csv := fun _ _ _ => Raises e;
     on_list_keys := fun _ _ => Raises e;
     on_delete_key := fun _ _ _ => Raises e;
     on_detach_policy := fun _ _ _ => Raises e;
     on_delete_policy := fun _ _ => Raises e;
     on_delete_user := fun _ _ => Raises e;
     on_objects_filter := fun _ _ _ => Raises e;
     on_objects_filter_delete := fun _ _ _ => Raises e |}.

(** Provider [base], except that no key can be issued: [create_key]
    raises [e]. *)
Definition without_keys (base : provider) (e : exn) : provider :=
  {| on_bucket_exists := on_bucket_exists base;
     on_list_users := on_list_users base;
     on_create_user := on_create_user base;
     on_list_policies := on_list_policies base;
     on_iam_create_policy := on_iam_create_policy base;
     on_attach_policy := on_attach_policy base;
     on_create_key := fun _ _ => Raises e;
     on_write_csv := on_write_csv base;
     on_list_keys := on_list_keys base;
     on_delete_key := on_delete_key base;
     on_detach_policy := on_detach_policy base;
     on_delete_policy := on_delete_policy base;
     on_delete_user := on_delete_user base;
     on_objects_filter := on_objects_filter base;
     on_objects_filter_delete := on_objects_filter_delete base |}.

Definition limit_exceeded : exn :=
  {| exn_type := "LimitExceededException";
     exn_str := "Cannot exceed quota for AccessKeysPerUser: 2";
     is_client_error := true |}.

Definition no_such_entity : exn :=
  {| exn_type := "NoSuchEntityException";
     exn_str := "The user with name dave cannot be found.";
     is_client_error := true |}.

Definition dave_list : Policy.t :=
  {| Policy.policy_name := "dave-list"; Policy.arn := "arn:aws:iam::1:policy/dave-list" |}.

Definition dave_get : Policy.t :=
  {| Policy.policy_name := "dave-get"; Policy.arn := "arn:aws:iam::1:policy/dave-get" |}.

Definition audit : Policy.t :=
  {| Policy.policy_name := "audit"; Policy.arn := "arn:aws:iam::1:policy/audit" |}.

Definition old_key : Key.t := {| Key.id := "AKIAOLD"; Key.secret := "" |}.

(** * Properties *)

(** ** The validator *)

Section Validator.

Import Re.

Lemma at_eol_spec (rest : string) :
  at_eol rest = true <-> rest = "" \/ rest = newline.
Proof.
  unfold newline. destruct rest as [|c [|d rest]]; simpl.
  - intuition.
  - rewrite Ascii.eqb_eq. split.
    + intros ->. now right.
    + intros [H|H]; [discriminate | now injection H].
  - split; [discriminate | intros [H|H]; discriminate].
Qed.

(** [many1] succeeds exactly when the string splits into a non-empty
    run of the class and a rest that the continuation accepts. *)
Lemma many1_spec (cls : list class_item) (k : string -> bool) (s : string) :
  many1 cls k s = true <->
  exists w rest, s = w ++ rest /\ w <> "" /\
                 all_chars (in_class cls) w = true /\ k rest = true.
Proof.
  induction s as [|c s IH]; simpl.
  - split; [discriminate|].
    intros (w & rest & E & Hw & _). destruct w; [congruence | discriminate].
  - rewrite andb_true_iff, orb_true_iff, IH. split.
    + intros [Hc [(w & rest & -> & Hw & Hall & Hk) | Hk]].
      * exists (String c w), rest. simpl. rewrite Hc, Hall.
        repeat split; congruence.
      * exists (String c ""), s. simpl. rewrite Hc.
        repeat split; congruence.
    + intros (w & rest & E & Hw & Hall & Hk).
      destruct w as [|d w]; [congruence|].
      simpl in E, Hall. injection E as <- ->.
      apply andb_true_iff in Hall as [Hc Hall]. split; [exact Hc|].
      destruct w as [|e w].
      * right. exact Hk.
      * left. exists (String e w), rest. repeat split; auto. discriminate.
Qed.

Lemma user_name_class (c : ascii) :
  in_class [CRange "A" "Z"; CRange "a" "z"; CRange "0" "9";
            CChar "_"; CChar "-"]%char c = name_char c.
Proof. destruct c as [[] [] [] [] [] [] [] []]; reflexivity. Qed.

Lemma all_chars_ext (p q : ascii -> bool) (s : string) :
  (forall c, p c = q c) -> all_chars p s = all_chars q s.
Proof. intros E. induction s; simpl; [|rewrite E, IHs]; reflexivity. Qed.

(** What the code accepts: a non-empty run of the class, possibly
    followed by one newline. *)
Lemma is_valid_user_name_spec (s : string) :
  is_valid_user_name s = true <->
  exists w, w <> "" /\ all_chars name_char w = true /\
            (s = w \/ s = w ++ newline).
Proof.
  unfold is_valid_user_name, re_match, user_name_pattern.
  destruct (match_at _ true s) eqn:E; simpl in E.
  - apply many1_spec in E as (w & rest & -> & Hw & Hall & Hk).
    rewrite andb_true_r in Hk. apply at_eol_spec in Hk.
    rewrite (all_chars_ext _ _ _ user_name_class) in Hall.
    split; [intros _ | reflexivity].
    exists w. repeat split; auto.
    destruct Hk as [-> | ->]; [left | right]; auto.
    clear. induction w; simpl; congruence.
  - split; [discriminate|].
    intros (w & Hw & Hall & Hs).
    rewrite <- E. apply many1_spec.
    exists w, (if string_dec s w then "" else newline).
    rewrite (all_chars_ext _ _ _ user_name_class).
    destruct (string_dec s w) as [-> | Hne].
    + repeat split; auto. clear. induction w; simpl; congruence.
    + destruct Hs as [-> | ->]; [congruence|]. repeat split; auto.
Qed.

(** Every non-empty string made of letters, digits, underscores and
    dashes is accepted. *)
Lemma is_valid_user_name_accepts (s : string) :
  s <> "" -> all_chars name_char s = true -> is_valid_user_name s = true.
Proof.
  intros Hs Hall. apply is_valid_user_name_spec. exists s. auto.
Qed.

(** C1: [is_valid_user_name] is to return false for every string with
    a character outside the class.  The name made of [a] and a newline
    has such a character, its final newline, and the code returns
    true. *)
Theorem is_valid_user_name_newline_accepted :
  all_chars name_char ("a" ++ newline) = false /\
  is_valid_user_name ("a" ++ newline) = true.
Proof. split; reflexivity. Qed.

(** C10: a non-empty string of letters, digits, underscores and dashes,
    followed by a single newline, is accepted, although the newline is
    outside the class: [$] also matches just before a final newline. *)
Theorem is_valid_user_name_trailing_newline (s : string) :
  s <> "" -> all_chars name_char s = true ->
  name_char "010" = false /\
  Re.at_eol newline = true /\
  is_valid_user_name (s ++ newline) = true.
Proof.
  intros Hs Hall. split; [reflexivity|]. split; [reflexivity|].
  apply is_valid_user_name_spec. exists s. auto.
Qed.

Lemma is_valid_user_name_trailing_newline_witness :
  "hal-9000" <> "" /\ all_chars name_char "hal-9000" = true /\
  is_valid_user_name ("hal-9000" ++ newline) = true.
Proof.
  split; [discriminate|]. split; [reflexivity|].
  apply (is_valid_user_name_trailing_newline "hal-9000");
    [discriminate | reflexivity].
Defined.

End Validator.

(** ** Policy documents *)

Section PolicyDocuments.

Variables B U : string.

Lemma append_assoc (a b c : string) : (a ++ b) ++ c = a ++ b ++ c.
Proof. induction a; simpl; congruence. Qed.

Lemma strip_prefix_append (pre s : string) :
  strip_prefix pre (pre ++ s) = Some s.
Proof.
  induction pre as [|a pre IH]; simpl; [reflexivity|].
  now rewrite Ascii.eqb_refl.
Qed.

(** C2: the document for [s3:ListBucket] carries the condition
    [StringEquals] with [s3:prefix] the two values [""] and [U/] and
    [s3:delimiter] the value ["/"]; its resource is the ARN of the
    whole bucket, built from [B] alone. *)
Theorem list_policy_doc :
  let doc := policy_doc "s3:ListBucket" B U in
  condition_of doc =
    Some (JDict [ ("StringEquals",
                   JDict [ ("s3:prefix", JList [JStr ""; JStr (U ++ "/")]);
                           ("s3:delimiter", JList [JStr "/"]) ]) ]) /\
  string_equals_of "s3:prefix" doc = Some (JList [JStr ""; JStr (U ++ "/")]) /\
  string_equals_of "s3:delimiter" doc = Some (JList [JStr "/"]) /\
  resource_of doc = Some (JStr ("arn:aws:s3:::" ++ B)) /\
  (forall U', resource_of (policy_doc "s3:ListBucket" B U') = resource_of doc).
Proof. repeat split. Qed.

(** C3: the document for [s3:GetObject] has the resource
    [arn:aws:s3:::B/U/*] and its statement has no condition: it holds
    the effect, the action and the resource, nothing else. *)
Theorem get_policy_doc :
  let doc := policy_doc "s3:GetObject" B U in
  resource_of doc = Some (JStr ("arn:aws:s3:::" ++ B ++ "/" ++ U ++ "/*")) /\
  condition_of doc = None /\
  statement_of doc =
    Some (JDict [ ("Effect", JStr "Allow");
                  ("Action", JStr "s3:GetObject");
                  ("Resource",
                   JStr ("arn:aws:s3:::" ++ B ++ "/" ++ U ++ "/*")) ]).
Proof. repeat split. Qed.

(** C4: the folder in the list policy's condition and the key pattern
    in the get policy's resource come from the user name in the same
    way: the folder is [U/] and the pattern is that folder followed by
    [*]. *)
Theorem list_and_get_share_the_folder :
  exists user_folder,
    user_folder = U ++ "/" /\
    listed_folder (policy_doc "s3:ListBucket" B U) = Some user_folder /\
    object_pattern B (policy_doc "s3:GetObject" B U) = Some (user_folder ++ "*").
Proof.
  exists (U ++ "/"). split; [reflexivity|]. split; [reflexivity|].
  unfold object_pattern.
  replace (resource_of (policy_doc "s3:GetObject" B U))
    with (Some (JStr (("arn:aws:s3:::" ++ B ++ "/") ++ (U ++ "/") ++ "*"))).
  - apply strip_prefix_append.
  - cbn [policy_doc]. unfold resource_of, statement_of. simpl.
    rewrite !append_assoc. reflexivity.
Qed.

End PolicyDocuments.

(** ** Laws of the monad *)

(** Messages stay as written while traces are computed. *)
#[local] Arguments String.append : simpl never.

Section Laws.

Context {A B : Type}.

Lemma bind_emit (e : event) (k : unit -> M B) p h :
  bind (emit e) k p h = k tt p (h ++ [e])%list.
Proof. reflexivity. Qed.

Lemma bind_call_returns (o : op) answer (k : A -> M B) p h v :
  answer p h = Returns v ->
  bind (call o answer) k p h = k v p (h ++ [Call o])%list.
Proof. intros E. unfold bind, call. now rewrite E. Qed.

Lemma bind_call_raises (o : op) answer (k : A -> M B) p h e :
  answer p h = Raises e ->
  bind (call o answer) k p h = ((h ++ [Call o])%list, Raise e).
Proof. intros E. unfold bind, call. now rewrite E. Qed.

Lemma bind_ret (a : A) (k : A -> M B) p h : bind (ret a) k p h = k a p h.
Proof. reflexivity. Qed.

Lemma bind_exit_program (message : string) (k : A -> M B) p h :
  bind (exit_program message) k p h =
  ((h ++ [Log ERROR ("Exiting. " ++ message);
          Print ("ERROR. Exiting. " ++ message)])%list, Exit 0).
Proof.
  unfold exit_program, logger_error, print, bind, emit, exit.
  now rewrite <- app_assoc.
Qed.

Lemma bind_exits (m : M A) (k : A -> M B) p h h' status :
  m p h = (h', Exit status) -> bind m k p h = (h', Exit status).
Proof. intros E. unfold bind. now rewrite E. Qed.

Lemma bind_returns (m : M A) (k : A -> M B) p h h' a :
  m p h = (h', Val a) -> bind m k p h = k a p h'.
Proof. intros E. unfold bind. now rewrite E. Qed.

End Laws.

Lemma bind_assoc {A B C} (m : M A) (f : A -> M B) (g : B -> M C) p h :
  bind (bind m f) g p h = bind m (fun x => bind (f x) g) p h.
Proof. unfold bind. destruct (m p h) as [h' [a|e|s]]; reflexivity. Qed.

Lemma exit_program_run {A} (message : string) p h :
  exit_program (A:=A) message p h =
  ((h ++ [Log ERROR ("Exiting. " ++ message);
          Print ("ERROR. Exiting. " ++ message)])%list, Exit 0).
Proof.
  unfold exit_program, logger_error, print, bind, emit, exit.
  now rewrite <- app_assoc.
Qed.

Lemma printed_app (h t : history) : printed (h ++ t)%list = (printed h ++ printed t)%list.
Proof.
  induction h as [|[o|l m|line|b] h IH]; simpl; auto. now rewrite IH.
Qed.

(** ** Tidy computations *)

Section Tidy.

Variable ok : event -> Prop.
Hypothesis ok_log : forall l message, ok (Log l message).
Hypothesis ok_print : forall line, ok (Print line).

Lemma tidy_ret {A} (a : A) : tidy ok (ret a).
Proof. intros p h. exists []. simpl. now rewrite app_nil_r. Qed.

Lemma tidy_raise {A} (e : exn) : tidy ok (raise (A:=A) e).
Proof. intros p h. exists []. simpl. now rewrite app_nil_r. Qed.

Lemma tidy_log (l : level) (message : string) : tidy ok (emit (Log l message)).
Proof. intros p h. exists [Log l message]. simpl. auto. Qed.

Lemma tidy_call {A} (o : op) (answer : provider -> history -> outcome A) :
  ok (Call o) -> tidy ok (call o answer).
Proof.
  intros Ho p h. exists [Call o]. unfold call. simpl.
  repeat split; auto. now destruct (answer p h).
Qed.

Lemma tidy_exit_program {A} (message : string) :
  tidy ok (exit_program (A:=A) message).
Proof.
  intros p h. rewrite exit_program_run.
  exists [Log ERROR ("Exiting. " ++ message);
          Print ("ERROR. Exiting. " ++ message)].
  simpl. repeat split; eauto.
Qed.

Lemma tidy_bind {A B} (m : M A) (f : A -> M B) :
  tidy ok m -> (forall a, tidy ok (f a)) -> tidy ok (bind m f).
Proof.
  intros Hm Hf p h. destruct (Hm p h) as (t & Eh & Hok & Hr).
  unfold bind. destruct (m p h) as [h' [a|e|s]]; simpl in Eh, Hr; subst h'.
  - destruct (Hf a p (h ++ t)%list) as (t' & Eh' & Hok' & Hr').
    exists (t ++ t')%list. rewrite Eh', app_assoc, printed_app, Hr.
    repeat split; auto. now apply Forall_app.
  - exists t. auto.
  - exists t. auto.
Qed.

Lemma tidy_when (b : bool) (m : M unit) : tidy ok m -> tidy ok (when b m).
Proof. destruct b; simpl; auto using tidy_ret. Qed.

Lemma tidy_for_each {A} (xs : list A) (body : A -> M unit) :
  (forall x, tidy ok (body x)) -> tidy ok (for_each xs body).
Proof.
  intros Hbody. induction xs as [|x xs IH]; simpl.
  - apply tidy_ret.
  - apply tidy_bind; auto.
Qed.

Lemma tidy_for_fold {A S} (xs : list A) (s : S) (body : S -> A -> M S) :
  (forall s x, tidy ok (body s x)) -> tidy ok (for_fold xs s body).
Proof.
  intros Hbody. revert s. induction xs as [|x xs IH]; intros s; simpl.
  - apply tidy_ret.
  - apply tidy_bind; auto.
Qed.

Lemma tidy_try_except_client_error {A} (body : M A) (handler : M unit) :
  tidy ok body -> tidy ok handler ->
  tidy ok (try_except_client_error body handler).
Proof.
  intros Hb Hh p h. destruct (Hb p h) as (t & Eh & Hok & Hr).
  unfold try_except_client_error.
  destruct (body p h) as [h' [a|e|s]]; simpl in Eh, Hr; subst h'.
  - exists t. auto.
  - destruct (is_client_error e); [|exists t; auto].
    destruct (tidy_bind handler (fun _ => raise (A:=A) e) Hh
                (fun _ => tidy_raise e) p (h ++ t)%list)
      as (t' & Eh' & Hok' & Hr').
    exists (t ++ t')%list. rewrite Eh', app_assoc, printed_app, Hr.
    repeat split; auto. now apply Forall_app.
  - exists t. auto.
Qed.

(** A script after its arguments are parsed: a first log line, then
    the body under [try], the error report under [except Exception]
    and [Success!] under [else]. *)
Lemma tidy_script_ends_well {A} (repr : string -> string) (first : string)
  (body : M A) p h :
  tidy ok body ->
  exists t r,
    (logger_info first ;;
     try_except_else body (report_exception repr) (print "Success!")) p h
    = ((h ++ t)%list, r) /\ Forall ok t /\ ends_well t r.
Proof.
  intros Hbody. unfold logger_info. rewrite bind_emit.
  destruct (Hbody p (h ++ [Log INFO first])%list) as (t & Eh & Hok & Hr).
  unfold try_except_else.
  destruct (body p _) as [h' [a|e|s]]; simpl in Eh, Hr; subst h'.
  - exists (Log INFO first :: t ++ [Print "Success!"])%list, (Val tt).
    unfold print, emit. rewrite <- !app_assoc. simpl.
    repeat split.
    + constructor; auto. apply Forall_app. auto.
    + left. simpl. now rewrite printed_app, Hr.
  - unfold report_exception, logger_error. rewrite bind_emit, exit_program_run.
    eexists (Log INFO first :: t ++ [_; _; _])%list, (Exit 0).
    rewrite <- !app_assoc. simpl. repeat split.
    + constructor; auto. apply Forall_app. split; auto 6.
    + right. split; auto. simpl. rewrite printed_app, Hr. simpl. eauto.
  - destruct Hr as (-> & message & Hp).
    exists (Log INFO first :: t), (Exit 0).
    rewrite <- app_assoc. simpl. repeat split; auto.
    right. split; auto. exists message. exact Hp.
Qed.

End Tidy.

(** Running a computation one step further: the law for the head of a
    [bind], with the provider's answer taken from the context. *)
Ltac run_step :=
  first
    [ rewrite bind_emit
    | rewrite bind_ret
    | rewrite bind_exit_program
    | rewrite exit_program_run
    | erewrite bind_call_returns by (cbv beta; eauto)
    | erewrite bind_call_raises by (cbv beta; eauto)
    | progress cbn [app when negb fst snd] ].

Create HintDb calls.
#[local] Hint Unfold bucket_exists list_users create_user list_policies
  iam_create_policy attach_policy create_key write_csv list_keys delete_key
  detach_policy delete_policy delete_user objects_filter objects_filter_delete
  logger_info logger_warning logger_error : calls.

(** One step of a proof that a computation is tidy: the lemma for its
    head, or a case split on what it branches on. *)
Ltac tidy_step :=
  lazymatch goal with
  | |- tidy _ (match ?x with _ => _ end) => destruct x
  | |- tidy _ (bind _ _) => apply tidy_bind
  | |- tidy _ (ret _) => apply tidy_ret
  | |- tidy _ (exit_program _) => apply tidy_exit_program
  | |- tidy _ (emit (Log _ _)) => apply tidy_log
  | |- tidy _ (call _ _) => apply tidy_call
  | |- tidy _ (when _ _) => apply tidy_when
  | |- tidy _ (for_each _ _) => apply tidy_for_each
  | |- tidy _ (for_fold _ _ _) => apply tidy_for_fold
  | |- tidy _ (try_except_client_error _ _) =>
      apply tidy_try_except_client_error
  | |- forall _, _ => intro; cbv beta
  | |- _ => solve [cbv [anything storage_scoped]; auto]
  end.

Ltac tidy := autounfold with calls; repeat tidy_step.

(** ** The runs *)

Section Runs.

Variable user_policy_name : string -> string -> string.
Variable repr : string -> string.
Variable str_of_dict : json -> string.

Let create := create_s3_user user_policy_name repr str_of_dict.
Let delete := delete_s3_user user_policy_name repr.





(** The document that [create_policy] hands to the provider is
    [policy_doc], whatever the provider then answers. *)
Lemma create_policy_sends_policy_doc name description actions bucket_name
  user_name p h :
  exists rest,
    fst (create_policy str_of_dict name description actions bucket_name
           user_name p h)
    = (h ++ [ Log INFO ("Policy doc: "
                        ++ str_of_dict (policy_doc actions bucket_name user_name));
              Call (IamCreatePolicy name description
                      (policy_doc actions bucket_name user_name)) ]
         ++ rest)%list.
Proof.
  unfold create_policy, try_except_client_error. autounfold with calls.
  rewrite bind_emit. unfold bind at 1, call at 1.
  destruct (on_iam_create_policy p _ name description _) as [policy|e].
  - rewrite bind_emit. eexists. cbn [ret fst].
    rewrite <- !app_assoc. reflexivity.
  - destruct (is_client_error e).
    + rewrite bind_emit. eexists. cbn [raise fst].
      rewrite <- !app_assoc. reflexivity.
    + exists []. cbn [fst]. now rewrite <- app_assoc.
Qed.

(** The uniqueness check leaves at the first user of that name. *)
Lemma uniqueness_check_exits (U message : string) (users : list User.t) p h :
  existsb (fun u => U =? User.name u) users = true ->
  for_each users (fun existing_user =>
    when (U =? User.name existing_user) (exit_program message)) p h
  = ((h ++ [Log ERROR ("Exiting. " ++ message);
            Print ("ERROR. Exiting. " ++ message)])%list, Exit 0).
Proof.
  induction users as [|u users IH]; simpl; [discriminate|].
  destruct (U =? User.name u); simpl.
  - intros _. now rewrite bind_exit_program.
  - intros H. rewrite bind_ret. auto.
Qed.

(** C5: when the bucket check answers false, the run logs its first
    line, asks for the bucket, reports [Bucket does not exist] and
    leaves with [exit(0)]; these four events are the whole run, and
    none of them changes the account, the bucket or the disk. *)
Theorem create_stops_at_missing_bucket (B U : string) (p : provider) :
  (forall h, on_bucket_exists p h B = Returns false) ->
  create (Namespace B U) p [] =
    ([ Log INFO ("Creating iam-user " ++ U ++ " for bucket " ++ B);
       Call (BucketExists B);
       Log ERROR ("Exiting. Bucket does not exist: " ++ B);
       Print ("ERROR. Exiting. Bucket does not exist: " ++ B) ],
     Exit 0) /\
  forallb (fun e => negb (is_change e)) (fst (create (Namespace B U) p []))
  = true.
Proof.
  intros H.
  assert (E : create (Namespace B U) p [] =
    ([ Log INFO ("Creating iam-user " ++ U ++ " for bucket " ++ B);
       Call (BucketExists B);
       Log ERROR ("Exiting. Bucket does not exist: " ++ B);
       Print ("ERROR. Exiting. Bucket does not exist: " ++ B) ],
     Exit 0)).
  { unfold create, create_s3_user, try_except_else.
    autounfold with calls. repeat run_step. reflexivity. }
  rewrite E. split; reflexivity.
Qed.

(** C6: when the account lists an identity of the given name, the run
    ends through [exit(0)] after one error line, and nothing in it
    changes the account, the bucket or the disk: no identity, policy,
    attachment, key or file is made.  When the bucket exists and the
    name is valid, so that the list of users is read, the run ends at
    the uniqueness check with [This user already exists]. *)
Theorem create_stops_at_existing_user (B U : string) (p : provider) :
  (forall h users, on_list_users p h = Returns users ->
                   existsb (fun u => U =? User.name u) users = true) ->
  let run := create (Namespace B U) p [] in
  snd run = Exit 0 /\
  (exists message, printed (fst run) = ["ERROR. Exiting. " ++ message]) /\
  forallb (fun e => negb (is_change e)) (fst run) = true /\
  ((forall h, on_bucket_exists p h B = Returns true) ->
   is_valid_user_name U = true ->
   (forall h e, on_list_users p h <> Raises e) ->
   fst run =
     [ Log INFO ("Creating iam-user " ++ U ++ " for bucket " ++ B);
       Call (BucketExists B);
       Call ListUsers;
       Log ERROR ("Exiting. This user already exists in the account: " ++ U);
       Print ("ERROR. Exiting. This user already exists in the account: " ++ U) ]).
Proof.
  intros Hexists run. subst run.
  unfold create, create_s3_user, try_except_else, report_exception.
  autounfold with calls. rewrite bind_emit. cbn [app].
  set (first := Log INFO ("Creating iam-user " ++ U ++ " for bucket " ++ B)).
  destruct (on_bucket_exists p [first] B) as [[|]|e] eqn:Eb.
  2, 3: repeat run_step; repeat split; try (eexists; reflexivity);
        intros Hb; now rewrite Hb in Eb.
  erewrite bind_call_returns by exact Eb. cbn [app when negb].
  rewrite bind_ret.
  destruct (is_valid_user_name U) eqn:Ev.
  2: { repeat run_step. repeat split; try (eexists; reflexivity).
       discriminate. }
  cbn [when negb]. rewrite bind_ret.
  destruct (on_list_users p [first; Call (BucketExists B)])
    as [users|e] eqn:Eu.
  2: { repeat run_step. repeat split; try (eexists; reflexivity).
       intros _ _ Hu. now apply Hu in Eu. }
  erewrite bind_call_returns by exact Eu.
  erewrite bind_exits by (apply uniqueness_check_exits; eauto).
  cbn [app fst snd]. repeat split; try (eexists; reflexivity).
Qed.


(** Every event of the body of [delete_s3_user] is a log line, the
    error line of [exit_program], or a call; a call on the stored
    objects names the bucket [B] and the prefix [U/]. *)
Lemma delete_body_tidy (B U : string) :
  tidy (storage_scoped B (U ++ "/"))
    (all_keys_for_user <- list_keys U ;;
     match all_keys_for_user with
     | _ :: _ =>
         for_each all_keys_for_user (fun key =>
           logger_info ("Deleting key " ++ key.(Key.id)
                        ++ " for user " ++ U ++ ".") ;;
           delete_key U key.(Key.id))
     | [] => logger_warning ("No access keys found for user " ++ U ++ ".")
     end ;;
     listed_policies <- list_policies "Local" ;;
     let user_policy_names :=
       [ user_policy_name U "list"; user_policy_name U "get" ] in
     for_each user_policy_names (fun user_policy_name =>
       found_policy <-
         for_fold listed_policies false (fun found_policy policy =>
           if policy.(Policy.policy_name) =? user_policy_name then
             logger_info ("Deleting policy " ++ user_policy_name
                          ++ " for user " ++ U ++ ".") ;;
             detach_policy U policy.(Policy.arn) ;;
             delete_policy policy.(Policy.arn) ;;
             ret true
           else ret found_policy) ;;
       when (negb found_policy)
         (logger_warning ("Cannot find policy to remove: "
                          ++ user_policy_name ++ "."))) ;;
     logger_info ("Deleting user " ++ U) ;;
     delete_user U ;;
     exists_ <- bucket_exists B ;;
     when (negb exists_) (exit_program ("Bucket does not exist: " ++ B)) ;;
     logger_info ("Deleting objects for user " ++ U
                  ++ " in bucket " ++ B ++ ".") ;;
     let prefix := U ++ "/" in
     keys <- objects_filter B prefix ;;
     let user_object_count := List.length keys in
     if (0 <? user_object_count)%nat then
       logger_info ("Number of ojects to delete: "
                    ++ decimal user_object_count) ;;
       objects_filter_delete B prefix
     else
       logger_warning ("No objects found for user " ++ U
                       ++ " in bucket " ++ B ++ ".")).
Proof. tidy. Qed.

Lemma storage_scoped_log B P l message : storage_scoped B P (Log l message).
Proof. exact I. Qed.

Lemma storage_scoped_print B P line : storage_scoped B P (Print line).
Proof. exact I. Qed.



(** C9: in a run of [delete_s3_user] for bucket [B] and user [U],
    every listing and every deletion of stored objects is issued on
    [B] with the prefix [U/]. *)
Theorem delete_storage_calls_scoped (B U : string) (p : provider) :
  Forall (storage_scoped B (U ++ "/")) (fst (delete (Namespace B U) p [])).
Proof.
  destruct (tidy_script_ends_well (storage_scoped B (U ++ "/"))
              (storage_scoped_log B (U ++ "/"))
              (storage_scoped_print B (U ++ "/")) repr
              ("Deleting iam-user " ++ U ++ " for bucket " ++ B ++ ".")
              _ p [] (delete_body_tidy B U)) as (t & r & E & Hok & _).
  change (delete (Namespace B U) p [] = (([] ++ t)%list, r)) in E.
  rewrite E. exact Hok.
Qed.

(** The search for a policy name that no listed policy has adds no
    event and leaves the flag as it was. *)
Lemma policy_search_misses (wanted : string) (hit : Policy.t -> M bool)
  (policies : list Policy.t) (found : bool) p h :
  forallb (fun policy => negb (policy.(Policy.policy_name) =? wanted))
          policies = true ->
  for_fold policies found (fun found_policy policy =>
    if policy.(Policy.policy_name) =? wanted then hit policy
    else ret found_policy) p h
  = (h, Val found).
Proof.
  revert found h. induction policies as [|policy policies IH];
    intros found h; simpl; [reflexivity|].
  destruct (Policy.policy_name policy =? wanted); simpl; [discriminate|].
  intros H. rewrite bind_ret. auto.
Qed.

(** C8: for a user with no keys and no listed policy of either name,
    whose deletion the provider accepts, the run logs the three
    warnings, deletes the user and goes on to the bucket check,
    whatever happens afterwards.  When the bucket exists and the calls
    on its objects return, the run lists the objects under [U/],
    deletes them under the same prefix if there are any, and ends with
    [Success!]. *)
Theorem delete_tolerates_absences (B U : string) (p : provider)
  (policies : list Policy.t) :
  (forall h, on_list_keys p h U = Returns []) ->
  (forall h, on_list_policies p h "Local" = Returns policies) ->
  forallb (fun policy =>
             negb (policy.(Policy.policy_name) =? user_policy_name U "list"))
          policies = true ->
  forallb (fun policy =>
             negb (policy.(Policy.policy_name) =? user_policy_name U "get"))
          policies = true ->
  (forall h, on_delete_user p h U = Returns tt) ->
  (exists rest,
     fst (delete (Namespace B U) p []) = (absences_tolerated user_policy_name B U ++ rest)%list)
  /\
  ((forall h, on_bucket_exists p h B = Returns true) ->
   forall keys,
     (forall h, on_objects_filter p h B (U ++ "/") = Returns keys) ->
     (forall h, on_objects_filter_delete p h B (U ++ "/") = Returns tt) ->
     delete (Namespace B U) p [] =
       ((absences_tolerated user_policy_name B U
         ++ [ Log INFO ("Deleting objects for user " ++ U
                        ++ " in bucket " ++ B ++ ".");
              Call (ObjectsFilter B (U ++ "/")) ]
         ++ (if (0 <? List.length keys)%nat
             then [ Log INFO ("Number of ojects to delete: "
                              ++ decimal (List.length keys));
                    Call (ObjectsFilterDelete B (U ++ "/")) ]
             else [ Log WARNING ("No objects found for user " ++ U
                                 ++ " in bucket " ++ B ++ ".") ])
         ++ [ Print "Success!" ])%list,
        Val tt)).
Proof.
  intros Hkeys Hpolicies Hlist Hget Huser.
  unfold delete, delete_s3_user, try_except_else, report_exception,
    absences_tolerated.
  autounfold with calls. rewrite bind_emit.
  erewrite bind_call_returns by (cbv beta; eauto).
  cbv beta iota. rewrite bind_emit.
  erewrite bind_call_returns by (cbv beta; eauto).
  cbv beta iota zeta. cbn [for_each app].
  rewrite !bind_assoc.
  erewrite bind_returns by (apply policy_search_misses; exact Hlist).
  cbn [negb when]. rewrite bind_emit, !bind_assoc.
  erewrite bind_returns by (apply policy_search_misses; exact Hget).
  cbn [negb when]. rewrite bind_emit, bind_ret, bind_emit.
  erewrite bind_call_returns by (cbv beta; eauto).
  cbn [app].
  split.
  - match goal with
    | |- context [bind (call (BucketExists B) ?a) ?k p ?h] =>
        destruct (a p h) as [[|]|e] eqn:Eb
    end.
    2, 3: repeat run_step; eexists; reflexivity.
    erewrite bind_call_returns by exact Eb. repeat run_step.
    match goal with
    | |- context [bind (call (ObjectsFilter B _) ?a) ?k p ?h] =>
        destruct (a p h) as [[|key keys]|e] eqn:Ek
    end.
    3: repeat run_step; eexists; reflexivity.
    + erewrite bind_call_returns by exact Ek. cbn [List.length Nat.ltb Nat.leb].
      repeat run_step. eexists; reflexivity.
    + erewrite bind_call_returns by exact Ek. cbn [List.length Nat.ltb Nat.leb].
      repeat run_step.
      match goal with
      | |- context [call (ObjectsFilterDelete B _) ?a p ?h] =>
          unfold call; destruct (a p h) as [[]|e]
      end; repeat run_step; eexists; reflexivity.
  - intros Hbucket keys Hfilter Hdelete.
    erewrite bind_call_returns by (cbv beta; eauto). repeat run_step.
    destruct keys as [|key keys]; cbn [List.length Nat.ltb Nat.leb];
      repeat run_step.
    + reflexivity.
    + unfold call. rewrite Hdelete. reflexivity.
Qed.

End Runs.

(** ** The theorems at work *)

(** A new user on an existing bucket: the user, two policies, one key
    and the csv file, in that order. *)
Example create_dave :
  create_s3_user dashed_policy_name quoted elided (Namespace "photos" "dave")
    (steady true [] [] [] []) []
  = ([ Log INFO "Creating iam-user dave for bucket photos";
       Call (BucketExists "photos");
       Call ListUsers;
       Call (CreateUser "dave");
       Log INFO "Creating list and get policies for bucket photos";
       Call (ListPolicies "Local");
       Log INFO "Policy doc: {...}";
       Call (IamCreatePolicy "dave-list"
               "Grant permission to list bucket for user folder"
               (policy_doc "s3:ListBucket" "photos" "dave"));
       Log INFO "Created policy arn:aws:iam::1:policy/dave-list";
       Call (AttachPolicy "dave" "arn:aws:iam::1:policy/dave-list");
       Call (ListPolicies "Local");
       Log INFO "Policy doc: {...}";
       Call (IamCreatePolicy "dave-get"
               "Grant permission to get objects from users folder"
               (policy_doc "s3:GetObject" "photos" "dave"));
       Log INFO "Created policy arn:aws:iam::1:policy/dave-get";
       Call (AttachPolicy "dave" "arn:aws:iam::1:policy/dave-get");
       Call (CreateKey "dave");
       Call (WriteCsv "dave_accessKeys.csv"
               [ ["Access key ID"; "Secret access key"]; ["AKIA"; "s3cr3t"] ]);
       Log INFO "Wrote keys to file dave_accessKeys.csv.";
       Print "Success!" ],
     Val tt).
Proof. reflexivity. Qed.

Lemma create_stops_at_missing_bucket_witness :
  (forall h, on_bucket_exists (steady false [] [] [] []) h "photos"
             = Returns false) /\
  create_s3_user dashed_policy_name quoted elided (Namespace "photos" "dave")
    (steady false [] [] [] []) []
  = ([ Log INFO "Creating iam-user dave for bucket photos";
       Call (BucketExists "photos");
       Log ERROR "Exiting. Bucket does not exist: photos";
       Print "ERROR. Exiting. Bucket does not exist: photos" ],
     Exit 0).
Proof.
  split; [reflexivity|].
  apply (create_stops_at_missing_bucket dashed_policy_name quoted elided
           "photos" "dave" (steady false [] [] [] [])).
  reflexivity.
Defined.

Lemma create_stops_at_existing_user_witness :
  (forall h users,
     on_list_users (steady true [dave] [] [] []) h = Returns users ->
     existsb (fun u => "dave" =? User.name u) users = true) /\
  snd (create_s3_user dashed_policy_name quoted elided
         (Namespace "photos" "dave") (steady true [dave] [] [] []) [])
  = Exit 0.
Proof.
  assert (H : forall h users,
             on_list_users (steady true [dave] [] [] []) h = Returns users ->
             existsb (fun u => "dave" =? User.name u) users = true).
  { intros h users E. injection E as <-. reflexivity. }
  split; [exact H|].
  apply (create_stops_at_existing_user dashed_policy_name quoted elided
           "photos" "dave" (steady true [dave] [] [] []) H).
Defined.


Lemma delete_tolerates_absences_witness :
  (forall h, on_list_keys (steady true [dave] [] [] ["dave/a.txt"]) h "dave"
             = Returns []) /\
  delete_s3_user dashed_policy_name quoted (Namespace "photos" "dave")
    (steady true [dave] [] [] ["dave/a.txt"]) []
  = ([ Log INFO "Deleting iam-user dave for bucket photos.";
       Call (ListKeys "dave");
       Log WARNING "No access keys found for user dave.";
       Call (ListPolicies "Local");
       Log WARNING "Cannot find policy to remove: dave-list.";
       Log WARNING "Cannot find policy to remove: dave-get.";
       Log INFO "Deleting user dave";
       Call (DeleteUser "dave");
       Call (BucketExists "photos");
       Log INFO "Deleting objects for user dave in bucket photos.";
       Call (ObjectsFilter "photos" "dave/");
       Log INFO "Number of ojects to delete: 1";
       Call (ObjectsFilterDelete "photos" "dave/");
       Print "Success!" ],
     Val tt).
Proof.
  split; [reflexivity|].
  exact (proj2 (delete_tolerates_absences dashed_policy_name quoted
                  "photos" "dave" (steady true [dave] [] [] ["dave/a.txt"]) []
                  (fun _ => eq_refl) (fun _ => eq_refl) eq_refl eq_refl
                  (fun _ => eq_refl))
               (fun _ => eq_refl) ["dave/a.txt"]
               (fun _ => eq_refl) (fun _ => eq_refl)).
Defined.

(** * Further properties *)

(** ** The validator, in full *)

Section ValidatorInFull.

(** X1: the names [is_valid_user_name] accepts are exactly the non-empty
    runs of letters, digits, underscores and dashes, and those runs
    followed by one newline; the empty string, and a string with any
    other character anywhere else, are refused. *)
Theorem is_valid_user_name_exactly (s : string) :
  is_valid_user_name s = true <->
  exists w, w <> "" /\ all_chars name_char w = true /\
            (s = w \/ s = w ++ newline).
Proof. apply is_valid_user_name_spec. Qed.

Lemma all_chars_middle (p : ascii -> bool) (a b : string) (c : ascii) :
  all_chars p (a ++ String c b) = true -> p c = true.
Proof.
  induction a as [|d a IH]; simpl; intros H;
    apply andb_true_iff in H as [H1 H2]; auto.
Qed.

(** Two ways to cut one string, the second just before its last
    character: the cuts agree, or the first one falls earlier. *)
Lemma append_last_inv (a b w : string) (c d : ascii) :
  a ++ String c b = w ++ String d "" ->
  (b = "" /\ c = d /\ a = w) \/
  (exists b', b = b' ++ String d "" /\ w = a ++ String c b').
Proof.
  revert w. induction a as [|x a IH]; intros w; simpl.
  - destruct w as [|y w]; simpl; intros E; injection E as -> ->.
    + auto.
    + right. exists w. auto.
  - destruct w as [|y w]; simpl; intros E.
    + injection E as -> E. destruct a; discriminate.
    + injection E as -> E. destruct (IH _ E) as [(-> & -> & ->) | (b' & -> & ->)].
      * auto.
      * right. exists b'. auto.
Qed.

(** X2: a name with a character outside the class is refused, unless
    that character is a newline and the last one: a space, a slash or a
    dot anywhere, or a newline before the end, makes the name invalid. *)
Theorem is_valid_user_name_refuses (a b : string) (c : ascii) :
  name_char c = false ->
  b <> "" \/ c <> "010"%char ->
  is_valid_user_name (a ++ String c b) = false.
Proof.
  intros Hc Hlast.
  destruct (is_valid_user_name (a ++ String c b)) eqn:E; [|reflexivity].
  apply is_valid_user_name_spec in E as (w & _ & Hall & [Hs | Hs]).
  - rewrite <- Hs in Hall. apply all_chars_middle in Hall. congruence.
  - unfold newline in Hs.
    apply append_last_inv in Hs as [(-> & -> & _) | (b' & _ & ->)].
    + destruct Hlast; congruence.
    + apply all_chars_middle in Hall. congruence.
Qed.

Lemma is_valid_user_name_refuses_witness :
  name_char "/" = false /\
  is_valid_user_name ("dave" ++ String "/" "etc") = false.
Proof.
  split; [reflexivity|].
  apply (is_valid_user_name_refuses "dave" "etc" "/");
    [reflexivity | left; discriminate].
Defined.

End ValidatorInFull.

(** ** Policy documents, for every action *)

Section EveryAction.

Variables actions B U : string.

(** X3: for an action that is neither [s3:GetObject] nor
    [s3:ListBucket] the document allows the action on the whole bucket:
    the resource is [arn:aws:s3:::B] and there is no condition, so the
    user's folder restricts nothing. *)
Theorem other_action_policy_doc :
  actions <> "s3:GetObject" -> actions <> "s3:ListBucket" ->
  policy_doc actions B U =
    JDict [ ("Version", JStr "2012-10-17");
            ("Statement",
             JList [ JDict [ ("Effect", JStr "Allow");
                             ("Action", JStr actions);
                             ("Resource", JStr ("arn:aws:s3:::" ++ B)) ] ]) ].
Proof.
  intros Hget Hlist. unfold policy_doc.
  apply String.eqb_neq in Hget, Hlist. now rewrite Hget, Hlist.
Qed.

(** X4: whatever the action, the document has the version
    [2012-10-17] and exactly one statement; the statement allows exactly
    the given action, and its resource is an ARN inside bucket [B]. *)
Theorem policy_doc_shape :
  field "Version" (policy_doc actions B U) = Some (JStr "2012-10-17") /\
  exists statement tail,
    field "Statement" (policy_doc actions B U) = Some (JList [statement]) /\
    field "Effect" statement = Some (JStr "Allow") /\
    field "Action" statement = Some (JStr actions) /\
    field "Resource" statement = Some (JStr ("arn:aws:s3:::" ++ B ++ tail)).
Proof.
  assert (Hnil : forall s : string, s ++ "" = s).
  { intros s. induction s as [|c s IH]; [reflexivity|].
    change (String c (s ++ "") = String c s). now rewrite IH. }
  split; [reflexivity|]. unfold policy_doc.
  destruct (actions =? "s3:GetObject"), (actions =? "s3:ListBucket").
  - eexists; exists ("/" ++ U ++ "/*"); repeat split; reflexivity.
  - eexists; exists ("/" ++ U ++ "/*"); repeat split; reflexivity.
  - eexists; exists ""; rewrite Hnil; repeat split; reflexivity.
  - eexists; exists ""; rewrite Hnil; repeat split; reflexivity.
Qed.

End EveryAction.

Lemma other_action_policy_doc_witness :
  "s3:PutObject" <> "s3:GetObject" /\
  resource_of (policy_doc "s3:PutObject" "photos" "dave")
  = Some (JStr "arn:aws:s3:::photos") /\
  condition_of (policy_doc "s3:PutObject" "photos" "dave") = None.
Proof.
  split; [discriminate|].
  rewrite (other_action_policy_doc "s3:PutObject" "photos" "dave");
    [split; reflexivity | discriminate | discriminate].
Defined.

(** Running on through nested sequences. *)
Ltac run_on := repeat first [rewrite bind_assoc | run_step].

(** Flattening sequences up to the next call. *)
Ltac flat := repeat first [rewrite bind_assoc | rewrite bind_emit | rewrite bind_ret].

(** A case for each answer the provider may give to the next call. *)
Ltac ask E :=
  match goal with
  | |- context [bind (call ?o ?a) ?k ?p ?h] =>
      let answer := eval cbv beta in (a p h) in
      destruct answer eqn:E;
      [ erewrite (bind_call_returns o a k p h) by exact E
      | erewrite (bind_call_raises o a k p h) by exact E ]
  end.

(** ** When the provider raises *)

Section StopsAtRaise.

(** A list cut at a call, when the list is made of two parts. *)
Lemma cut_at_call (t1 t2 pre rest : history) (o : op) :
  (t1 ++ t2)%list = (pre ++ Call o :: rest)%list ->
  (exists rest1, t1 = (pre ++ Call o :: rest1)%list /\ rest = (rest1 ++ t2)%list)
  \/ (exists pre2, pre = (t1 ++ pre2)%list /\ t2 = (pre2 ++ Call o :: rest)%list).
Proof.
  intros E. apply app_eq_app in E as (l & [[-> E] | [-> E]]).
  - destruct l as [|x l].
    + simpl in E. subst t2. right. exists []. rewrite !app_nil_r. auto.
    + injection E as -> ->. left. eauto.
  - right. eauto.
Qed.

Lemma no_call_in (t pre rest : history) (o : op) :
  Forall (fun e => ~ is_call e) t -> t <> (pre ++ Call o :: rest)%list.
Proof.
  intros H E. rewrite Forall_forall in H.
  apply (H (Call o)); [|exact I]. rewrite E. apply in_elt.
Qed.

Lemma stops_without_call {A} (m : M A) :
  (forall p h, exists t, fst (m p h) = (h ++ t)%list
                         /\ Forall (fun e => ~ is_call e) t) ->
  stops_at_raise m.
Proof.
  intros H p h. destruct (H p h) as (t & E & Hno). exists t. split; auto.
  intros pre o rest e Ecut. now apply no_call_in in Ecut.
Qed.

Lemma stops_ret {A} (a : A) : stops_at_raise (ret a).
Proof.
  apply stops_without_call. intros p h. exists []. simpl.
  rewrite app_nil_r. auto.
Qed.

Lemma stops_log (l : level) (message : string) :
  stops_at_raise (emit (Log l message)).
Proof.
  apply stops_without_call. intros p h. exists [Log l message]. simpl.
  split; auto.
Qed.

Lemma stops_exit_program {A} (message : string) :
  stops_at_raise (exit_program (A:=A) message).
Proof.
  apply stops_without_call. intros p h. rewrite exit_program_run.
  eexists. split; [reflexivity|]. repeat constructor; auto.
Qed.

(** A call stops at its own exception, when it asks the provider what
    [raised] reads. *)
Lemma stops_call {A} (o : op) (answer : provider -> history -> outcome A) :
  (forall p h, raised p h o = raises_of (answer p h)) ->
  stops_at_raise (call o answer).
Proof.
  intros Hanswer p h. exists [Call o]. split; [reflexivity|].
  intros pre o' rest e Ecut Hraised.
  destruct pre as [|x pre].
  - injection Ecut as <- <-. rewrite app_nil_r, Hanswer in Hraised.
    unfold call. simpl. destruct (answer p h); simpl in Hraised.
    + discriminate.
    + injection Hraised as ->. auto.
  - injection Ecut as _ Ecut. destruct pre; discriminate.
Qed.

Lemma stops_bind {A C} (m : M A) (f : A -> M C) :
  stops_at_raise m -> (forall a, stops_at_raise (f a)) ->
  stops_at_raise (bind m f).
Proof.
  intros Hm Hf p h. destruct (Hm p h) as (t1 & E1 & H1). unfold bind.
  destruct (m p h) as [h1 [a|e0|s]]; simpl in E1, H1; subst h1.
  - destruct (Hf a p (h ++ t1)%list) as (t2 & E2 & H2).
    exists (t1 ++ t2)%list. rewrite E2, app_assoc. split; [reflexivity|].
    intros pre o rest e Ecut Hraised.
    apply cut_at_call in Ecut as [(rest1 & Et1 & _) | (pre2 & -> & Et2)].
    + destruct (H1 _ _ _ _ Et1 Hraised) as [Habs _]. discriminate.
    + rewrite app_assoc in Hraised. exact (H2 _ _ _ _ Et2 Hraised).
  - exists t1. split; [reflexivity|]. intros pre o rest e Ecut Hraised.
    destruct (H1 _ _ _ _ Ecut Hraised) as [Hr Hlogs].
    injection Hr as ->. auto.
  - exists t1. split; [reflexivity|]. intros pre o rest e Ecut Hraised.
    destruct (H1 _ _ _ _ Ecut Hraised) as [Hr _]. discriminate.
Qed.

Lemma stops_when (b : bool) (m : M unit) :
  stops_at_raise m -> stops_at_raise (when b m).
Proof. destruct b; simpl; auto using stops_ret. Qed.

Lemma stops_for_each {A} (xs : list A) (body : A -> M unit) :
  (forall x, stops_at_raise (body x)) -> stops_at_raise (for_each xs body).
Proof.
  intros Hbody. induction xs as [|x xs IH]; simpl.
  - apply stops_ret.
  - apply stops_bind; auto.
Qed.

(** [except ClientError] adds a log line and raises the same exception
    again. *)
Lemma stops_try_except_client_error {A} (body : M A) (l : level)
  (message : string) :
  stops_at_raise body ->
  stops_at_raise (try_except_client_error body (emit (Log l message))).
Proof.
  intros Hb p h. destruct (Hb p h) as (t & E & H).
  unfold try_except_client_error.
  destruct (body p h) as [h' [a|e0|s]]; simpl in E, H; subst h'.
  - exists t. split; [reflexivity | exact H].
  - destruct (is_client_error e0);
      [|exists t; split; [reflexivity | exact H]].
    exists (t ++ [Log l message])%list. rewrite bind_emit. unfold raise.
    simpl. rewrite app_assoc. split; [reflexivity|].
    intros pre o rest e Ecut Hraised.
    apply cut_at_call in Ecut as [(rest1 & Et & ->) | (pre2 & _ & Et)].
    + destruct (H _ _ _ _ Et Hraised) as [Hr Hlogs]. split; [exact Hr|].
      apply Forall_app. split; auto. constructor; [exact I | constructor].
    + destruct pre2 as [|x pre2]; [discriminate|].
      injection Et as _ Et. destruct pre2; discriminate.
  - exists t. split; [reflexivity | exact H].
Qed.

End StopsAtRaise.

(** One step of a proof that a computation stops at the first
    exception of the provider. *)
Ltac stops_step :=
  lazymatch goal with
  | |- stops_at_raise (match ?x with _ => _ end) => destruct x
  | |- stops_at_raise (bind _ _) => apply stops_bind
  | |- stops_at_raise (ret _) => apply stops_ret
  | |- stops_at_raise (exit_program _) => apply stops_exit_program
  | |- stops_at_raise (emit (Log _ _)) => apply stops_log
  | |- stops_at_raise (call _ _) => apply stops_call; intros; reflexivity
  | |- stops_at_raise (when _ _) => apply stops_when
  | |- stops_at_raise (for_each _ _) => apply stops_for_each
  | |- stops_at_raise (try_except_client_error _ _) =>
      apply stops_try_except_client_error
  | |- forall _, _ => intro; cbv beta
  end.

(** ** More runs of [create_s3_user] *)

Section MoreCreateRuns.

Variable user_policy_name : string -> string -> string.
Variable repr : string -> string.
Variable str_of_dict : json -> string.

Let create := create_s3_user user_policy_name repr str_of_dict.

Lemma create_policy_run name description actions bucket_name user_name
  p h :
  create_policy str_of_dict name description actions bucket_name user_name p h
  = let doc := policy_doc actions bucket_name user_name in
    let logged := (h ++ [Log INFO ("Policy doc: " ++ str_of_dict doc)])%list in
    let sent := (logged ++ [Call (IamCreatePolicy name description doc)])%list in
    match on_iam_create_policy p logged name description doc with
    | Returns policy =>
        ((sent ++ [Log INFO ("Created policy " ++ policy.(Policy.arn))])%list,
         Val policy)
    | Raises e =>
        if is_client_error e
        then ((sent ++ [Log ERROR ("Couldn't create policy " ++ name)])%list,
              Raise e)
        else (sent, Raise e)
    end.
Proof.
  unfold create_policy, try_except_client_error. autounfold with calls.
  rewrite bind_emit. cbv zeta. unfold bind at 1, call at 1.
  destruct (on_iam_create_policy p _ name description _) as [policy|e].
  - now rewrite bind_emit.
  - destruct (is_client_error e); [now rewrite bind_emit | reflexivity].
Qed.

(** X5: [create_policy] logs the document, sends it to the provider
    under the given name and description, and then follows the answer: a
    policy is logged and returned; a [ClientError] is logged at level
    ERROR and raised again; any other exception passes unlogged. *)
Theorem create_policy_outcomes name description actions bucket_name user_name
  p h :
  create_policy str_of_dict name description actions bucket_name user_name p h
  = let doc := policy_doc actions bucket_name user_name in
    let logged := (h ++ [Log INFO ("Policy doc: " ++ str_of_dict doc)])%list in
    let sent := (logged ++ [Call (IamCreatePolicy name description doc)])%list in
    match on_iam_create_policy p logged name description doc with
    | Returns policy =>
        ((sent ++ [Log INFO ("Created policy " ++ policy.(Policy.arn))])%list,
         Val policy)
    | Raises e =>
        if is_client_error e
        then ((sent ++ [Log ERROR ("Couldn't create policy " ++ name)])%list,
              Raise e)
        else (sent, Raise e)
    end.
Proof. apply create_policy_run. Qed.

(** The uniqueness check passes a list without the name and adds no
    event. *)
Lemma uniqueness_check_passes (U message : string) (users : list User.t) p h :
  existsb (fun u => U =? User.name u) users = false ->
  for_each users (fun existing_user =>
    when (U =? User.name existing_user) (exit_program message)) p h
  = (h, Val tt).
Proof.
  induction users as [|u users IH]; simpl; [reflexivity|].
  destruct (U =? User.name u); simpl; [discriminate|].
  intros H. rewrite bind_ret. auto.
Qed.

(** X6: on an existing bucket, a name that the validator refuses ends
    the run right after the bucket check: the users are not even listed,
    one error line names the rule, and the run leaves with [exit(0)]. *)
Theorem create_stops_at_invalid_name (B U : string) (p : provider) :
  (forall h, on_bucket_exists p h B = Returns true) ->
  is_valid_user_name U = false ->
  create (Namespace B U) p [] =
    ([ Log INFO ("Creating iam-user " ++ U ++ " for bucket " ++ B);
       Call (BucketExists B);
       Log ERROR ("Exiting. Invalid user name: " ++ U
         ++ ". Only letters, numbers, underscores, and dashes are allowed.");
       Print ("ERROR. Exiting. Invalid user name: " ++ U
         ++ ". Only letters, numbers, underscores, and dashes are allowed.") ],
     Exit 0).
Proof.
  intros Hbucket Hname.
  unfold create, create_s3_user, try_except_else.
  autounfold with calls. rewrite Hname. repeat run_step. reflexivity.
Qed.

(** X7: when the policy name for ['list'] is already taken, the run
    stops after the user was created: no policy is registered or
    attached, no key is issued, no file is written, and the new user
    stays in the account, since nothing is undone. *)
Theorem create_leaves_user_when_policy_exists (B U : string) (p : provider)
  (users : list User.t) (user : User.t) (policies : list Policy.t) :
  (forall h, on_bucket_exists p h B = Returns true) ->
  is_valid_user_name U = true ->
  (forall h, on_list_users p h = Returns users) ->
  existsb (fun u => U =? User.name u) users = false ->
  (forall h, on_create_user p h U = Returns user) ->
  (forall h, on_list_policies p h "Local" = Returns policies) ->
  existsb (fun policy => user_policy_name user.(User.user_name) "list"
                         =? policy.(Policy.policy_name)) policies = true ->
  create (Namespace B U) p [] =
    ([ Log INFO ("Creating iam-user " ++ U ++ " for bucket " ++ B);
       Call (BucketExists B);
       Call ListUsers;
       Call (CreateUser U);
       Log INFO ("Creating list and get policies for bucket " ++ B);
       Call (ListPolicies "Local");
       Log ERROR ("Exiting. Cannot create policy because it already exists: "
                  ++ user_policy_name user.(User.user_name) "list");
       Print ("ERROR. Exiting. Cannot create policy because it already exists: "
              ++ user_policy_name user.(User.user_name) "list") ],
     Exit 0).
Proof.
  intros Hbucket Hname Husers Hfree Huser Hpolicies Htaken.
  unfold create, create_s3_user, try_except_else.
  autounfold with calls. rewrite Hname. repeat run_step.
  erewrite bind_returns by (apply uniqueness_check_passes; exact Hfree).
  repeat run_step.
  unfold create_and_add_policies, policy_exists. autounfold with calls.
  run_on. rewrite Htaken. run_on. reflexivity.
Qed.

(** The steps of [create_s3_user] under [try] stop at the first
    exception of the provider. *)
Lemma create_steps_stop (B U : string) :
  stops_at_raise
    (exists_ <- bucket_exists B ;;
     when (negb exists_) (exit_program ("Bucket does not exist: " ++ B)) ;;
     when (negb (is_valid_user_name U))
       (exit_program ("Invalid user name: " ++ U
          ++ ". Only letters, numbers, underscores, and dashes are allowed.")) ;;
     users <- list_users ;;
     for_each users (fun existing_user =>
       when (U =? existing_user.(User.name))
         (exit_program ("This user already exists in the account: " ++ U))) ;;
     user <- create_user U ;;
     create_and_add_policies user_policy_name str_of_dict user B ;;
     key_pair <- create_key U ;;
     write_keys_to_csv U key_pair).
Proof.
  unfold create_and_add_policies, create_policy, policy_exists,
    write_keys_to_csv.
  autounfold with calls. repeat stops_step.
Qed.

(** A script whose steps stop at the first exception of the provider
    reports that exception and leaves. *)
Lemma script_after_raise {A} (first : string) (body : M A) p
  (pre rest : history) (o : op) (e : exn) :
  stops_at_raise body ->
  fst ((logger_info first ;;
        try_except_else body (report_exception repr) (print "Success!")) p [])
  = (pre ++ Call o :: rest)%list ->
  raised p pre o = Some e ->
  snd ((logger_info first ;;
        try_except_else body (report_exception repr) (print "Success!")) p [])
  = Exit 0 /\
  exists logs,
    Forall is_log logs /\
    rest = (logs
            ++ [ Log ERROR ("Error of type " ++ exn_type e ++ " occurred:"
                            ++ repr (exn_str e));
                 Log ERROR ("Exiting. " ++ "Error of type " ++ exn_type e
                            ++ " occurred:" ++ repr (exn_str e));
                 Print ("ERROR. Exiting. " ++ "Error of type " ++ exn_type e
                        ++ " occurred:" ++ repr (exn_str e)) ])%list.
Proof.
  intros Hbody. unfold logger_info. rewrite bind_emit. cbn [app].
  unfold try_except_else.
  destruct (Hbody p [Log INFO first]) as (t & Et & Ht).
  assert (Hmiddle : forall tail,
    Forall (fun x => ~ is_call x) tail ->
    (Log INFO first :: t ++ tail)%list = (pre ++ Call o :: rest)%list ->
    raised p pre o = Some e ->
    exists rest1, rest = (rest1 ++ tail)%list /\
                  snd (body p [Log INFO first]) = Raise e /\
                  Forall is_log rest1).
  { intros tail Htail Ecut Hraised.
    change (Log INFO first :: t ++ tail)%list
      with ((Log INFO first :: t) ++ tail)%list in Ecut.
    apply cut_at_call in Ecut as [(rest1 & Ecut & ->) | (pre2 & _ & Ecut)].
    - destruct pre as [|x pre]; [discriminate|].
      injection Ecut as <- Ecut. exists rest1. split; [reflexivity|].
      exact (Ht _ _ _ _ Ecut Hraised).
    - now apply no_call_in in Ecut. }
  destruct (body p [Log INFO first]) as [hb [a|e0|status]];
    simpl in Et; subst hb; cbn [fst snd].
  - unfold print, emit. cbn [fst app]. intros Ecut Hraised.
    destruct (Hmiddle [Print "Success!"]) as (rest1 & _ & Habs & _); auto.
    discriminate.
  - unfold report_exception, logger_error. rewrite bind_emit, exit_program_run.
    cbn [fst snd]. rewrite <- !app_assoc. cbn [app]. intros Ecut Hraised.
    eapply Hmiddle in Ecut as (rest1 & -> & Hr & Hlogs);
      [ | repeat constructor; auto | exact Hraised ].
    injection Hr as ->. split; [reflexivity|]. exists rest1. auto.
  - intros Ecut Hraised.
    destruct (Hmiddle []) as (rest1 & _ & Habs & _); auto.
    + now rewrite app_nil_r.
    + discriminate.
Qed.

(** X8: whenever the provider raises at a call of the run, whichever
    call it is, no other call follows: after log lines at most, the
    message made of the exception's type name and the [repr] of its
    text is logged at level ERROR, logged again and printed by
    [exit_program], and the run leaves with [exit(0)]. *)
Theorem create_reports_exception (B U : string) (p : provider)
  (pre rest : history) (o : op) (e : exn) :
  fst (create (Namespace B U) p []) = (pre ++ Call o :: rest)%list ->
  raised p pre o = Some e ->
  snd (create (Namespace B U) p []) = Exit 0 /\
  exists logs,
    Forall is_log logs /\
    rest = (logs
            ++ [ Log ERROR ("Error of type " ++ exn_type e ++ " occurred:"
                            ++ repr (exn_str e));
                 Log ERROR ("Exiting. " ++ "Error of type " ++ exn_type e
                            ++ " occurred:" ++ repr (exn_str e));
                 Print ("ERROR. Exiting. " ++ "Error of type " ++ exn_type e
                        ++ " occurred:" ++ repr (exn_str e)) ])%list.
Proof.
  intros Ecut Hraised.
  exact (script_after_raise
           ("Creating iam-user " ++ U ++ " for bucket " ++ B) _ p pre rest o e
           (create_steps_stop B U) Ecut Hraised).
Qed.

Lemma create_run_calls (B U : string) (p : provider) :
  Forall (create_calls user_policy_name B U) (fst (create (Namespace B U) p [])).
Proof.
  assert (Hbody : tidy (create_calls user_policy_name B U)
    (exists_ <- bucket_exists B ;;
     when (negb exists_) (exit_program ("Bucket does not exist: " ++ B)) ;;
     when (negb (is_valid_user_name U))
       (exit_program ("Invalid user name: " ++ U
          ++ ". Only letters, numbers, underscores, and dashes are allowed.")) ;;
     users <- list_users ;;
     for_each users (fun existing_user =>
       when (U =? existing_user.(User.name))
         (exit_program ("This user already exists in the account: " ++ U))) ;;
     user <- create_user U ;;
     create_and_add_policies user_policy_name str_of_dict user B ;;
     key_pair <- create_key U ;;
     write_keys_to_csv U key_pair)).
  { unfold create_and_add_policies, create_policy, policy_exists,
      write_keys_to_csv.
    autounfold with calls.
    repeat first [ tidy_step | solve [cbv [create_calls]; eauto 8] ]. }
  destruct (tidy_script_ends_well (create_calls user_policy_name B U)
              (fun _ _ => I) (fun _ => I) repr
              ("Creating iam-user " ++ U ++ " for bucket " ++ B)
              _ p [] Hbody) as (t & r & E & Hok & _).
  change (create (Namespace B U) p [] = (([] ++ t)%list, r)) in E.
  rewrite E. exact Hok.
Qed.

(** X9: whatever the provider answers, a run of [create_s3_user] calls
    nothing but the bucket check on [B], the two listings, the creation
    of user [U], registrations of the list or the get document of
    bucket [B] under their own names, attachments, a key for [U] and
    the csv file of [U] with two rows.  It never deletes or detaches
    anything and never lists or deletes stored objects. *)
Theorem create_calls_only (B U : string) (p : provider) :
  Forall (create_calls user_policy_name B U) (fst (create (Namespace B U) p [])).
Proof. apply create_run_calls. Qed.

(** X10: a user is only ever created under the name given on the
    command line, after the bucket check has answered true and the
    validator has accepted the name. *)
Theorem create_user_only_when_valid (B U u : string) (p : provider) :
  In (Call (CreateUser u)) (fst (create (Namespace B U) p [])) ->
  u = U /\
  is_valid_user_name U = true /\
  on_bucket_exists p
    [Log INFO ("Creating iam-user " ++ U ++ " for bucket " ++ B)] B
  = Returns true.
Proof.
  intros Hin. split.
  - pose proof (create_run_calls B U p) as Hall.
    rewrite Forall_forall in Hall. exact (Hall _ Hin).
  - revert Hin.
    unfold create, create_s3_user, try_except_else, report_exception.
    autounfold with calls. rewrite bind_emit. cbn [app].
    ask Eb.
    2: { run_on. cbn. intuition discriminate. }
    match goal with v : bool |- _ => destruct v end.
    2: { run_on. cbn. intuition discriminate. }
    destruct (is_valid_user_name U); [auto|].
    run_on. cbn. intuition discriminate.
Qed.

(** Opening the next [create_policy] and taking the provider's answer
    to it by cases. *)
Ltac enter_create_policy :=
  match goal with
  | |- context [bind (create_policy ?s ?n ?d ?a ?b ?u) ?k ?p ?h] =>
      change (bind (create_policy s n d a b u) k p h)
        with (match create_policy s n d a b u p h with
              | (h', Val x) => k x p h'
              | (h', Raise e) => (h', Raise e)
              | (h', Exit status) => (h', Exit status)
              end);
      rewrite (create_policy_run n d a b u p h); cbv zeta
  end.

Ltac name_taken :=
  match goal with
  | |- context [when (existsb ?f ?l) _] => destruct (existsb f l)
  end.

Ltac ask_policy E :=
  match goal with
  | |- context [on_iam_create_policy ?p ?h ?n ?d ?doc] =>
      destruct (on_iam_create_policy p h n d doc) eqn:E
  end.

(** X11: a run that comes to its end, whatever provider it talked to,
    has made exactly these calls, in this order: the bucket check, the
    listing of users, the creation of the user, and then, for the list
    policy and for the get policy in turn, a listing of the local
    policies, the registration of the document and the attachment of the
    policy that the provider returned for it to the user that the
    provider returned; then one key and the csv file with the header row
    and the row of the key that the provider issued.  The name was
    valid, and the one line printed is [Success!]. *)
Theorem create_success_calls (B U : string) (p : provider) :
  snd (create (Namespace B U) p []) = Val tt ->
  exists (user : User.t) (list_policy get_policy : Policy.t) (key_pair : Key.t),
    on_create_user p (at_create_user B U) U = Returns user /\
    on_iam_create_policy p (at_list_policy str_of_dict B U user)
      (user_policy_name user.(User.user_name) "list")
      "Grant permission to list bucket for user folder"
      (policy_doc "s3:ListBucket" B user.(User.name))
    = Returns list_policy /\
    on_iam_create_policy p
      (at_get_policy user_policy_name str_of_dict B U user list_policy)
      (user_policy_name user.(User.user_name) "get")
      "Grant permission to get objects from users folder"
      (policy_doc "s3:GetObject" B user.(User.name))
    = Returns get_policy /\
    on_create_key p
      (at_create_key user_policy_name str_of_dict B U user list_policy
         get_policy) U
    = Returns (Some key_pair) /\
    fst (create (Namespace B U) p []) =
      provisioned user_policy_name str_of_dict B U user list_policy get_policy
        key_pair /\
    calls (fst (create (Namespace B U) p [])) =
      [ BucketExists B;
        ListUsers;
        CreateUser U;
        ListPolicies "Local";
        IamCreatePolicy (user_policy_name user.(User.user_name) "list")
          "Grant permission to list bucket for user folder"
          (policy_doc "s3:ListBucket" B user.(User.name));
        AttachPolicy user.(User.name) list_policy.(Policy.arn);
        ListPolicies "Local";
        IamCreatePolicy (user_policy_name user.(User.user_name) "get")
          "Grant permission to get objects from users folder"
          (policy_doc "s3:GetObject" B user.(User.name));
        AttachPolicy user.(User.name) get_policy.(Policy.arn);
        CreateKey U;
        WriteCsv (U ++ "_accessKeys.csv")
          [ ["Access key ID"; "Secret access key"];
            [key_pair.(Key.id); key_pair.(Key.secret)] ] ] /\
    is_valid_user_name U = true /\
    printed (fst (create (Namespace B U) p [])) = ["Success!"].
Proof.
  unfold create, create_s3_user, try_except_else, report_exception.
  autounfold with calls. rewrite bind_emit. cbn [app].
  ask Eb; [|run_on; discriminate].
  match goal with v : bool |- _ => destruct v end; [|run_on; discriminate].
  destruct (is_valid_user_name U); [|run_on; discriminate].
  run_on. ask Eu; [|run_on; discriminate].
  match goal with users : list User.t |- _ =>
    destruct (existsb (fun u => U =? User.name u) users) eqn:Efree
  end.
  { erewrite bind_exits by (apply uniqueness_check_exits; exact Efree).
    discriminate. }
  erewrite bind_returns by (apply uniqueness_check_passes; exact Efree).
  ask Euser; [|run_on; discriminate].
  unfold create_and_add_policies, policy_exists. autounfold with calls.
  run_on. ask El; [|run_on; discriminate].
  run_on. name_taken; [run_on; discriminate|].
  run_on. enter_create_policy. ask_policy El2.
  2: { destruct (is_client_error _); cbv beta iota; run_on; discriminate. }
  cbv beta iota. run_on. ask Ea1; [|run_on; discriminate].
  run_on. ask El3; [|run_on; discriminate].
  run_on. name_taken; [run_on; discriminate|].
  run_on. enter_create_policy. ask_policy Eg.
  2: { destruct (is_client_error _); cbv beta iota; run_on; discriminate. }
  cbv beta iota. run_on. ask Ea2; [|run_on; discriminate].
  run_on. ask Ek; [|run_on; discriminate].
  match goal with
  | |- context [write_keys_to_csv U ?k] => destruct k as [key_pair|]
  end; unfold write_keys_to_csv; [|run_on; discriminate].
  autounfold with calls. ask Ew; [|run_on; discriminate].
  unfold print, emit. cbn [app fst snd]. intros _.
  do 4 eexists.
  split; [exact Euser|]. split; [exact El2|]. split; [exact Eg|].
  split; [exact Ek|]. cbn [calls printed].
  repeat split.
Qed.

End MoreCreateRuns.

(** ** More runs of [delete_s3_user] *)

Section MoreDeleteRuns.

Variable user_policy_name : string -> string -> string.
Variable repr : string -> string.

Let delete := delete_s3_user user_policy_name repr.

Lemma delete_run_calls (B U : string) (p : provider) :
  Forall (delete_calls B U) (fst (delete (Namespace B U) p [])).
Proof.
  assert (Hbody : tidy (delete_calls B U)
    (all_keys_for_user <- list_keys U ;;
     match all_keys_for_user with
     | _ :: _ =>
         for_each all_keys_for_user (fun key =>
           logger_info ("Deleting key " ++ key.(Key.id)
                        ++ " for user " ++ U ++ ".") ;;
           delete_key U key.(Key.id))
     | [] => logger_warning ("No access keys found for user " ++ U ++ ".")
     end ;;
     listed_policies <- list_policies "Local" ;;
     let user_policy_names :=
       [ user_policy_name U "list"; user_policy_name U "get" ] in
     for_each user_policy_names (fun user_policy_name =>
       found_policy <-
         for_fold listed_policies false (fun found_policy policy =>
           if policy.(Policy.policy_name) =? user_policy_name then
             logger_info ("Deleting policy " ++ user_policy_name
                          ++ " for user " ++ U ++ ".") ;;
             detach_policy U policy.(Policy.arn) ;;
             delete_policy policy.(Policy.arn) ;;
             ret true
           else ret found_policy) ;;
       when (negb found_policy)
         (logger_warning ("Cannot find policy to remove: "
                          ++ user_policy_name ++ "."))) ;;
     logger_info ("Deleting user " ++ U) ;;
     delete_user U ;;
     exists_ <- bucket_exists B ;;
     when (negb exists_) (exit_program ("Bucket does not exist: " ++ B)) ;;
     logger_info ("Deleting objects for user " ++ U
                  ++ " in bucket " ++ B ++ ".") ;;
     let prefix := U ++ "/" in
     keys <- objects_filter B prefix ;;
     let user_object_count := List.length keys in
     if (0 <? user_object_count)%nat then
       logger_info ("Number of ojects to delete: "
                    ++ decimal user_object_count) ;;
       objects_filter_delete B prefix
     else
       logger_warning ("No objects found for user " ++ U
                       ++ " in bucket " ++ B ++ "."))).
  { autounfold with calls.
    repeat first [ tidy_step | solve [cbv [delete_calls]; eauto] ]. }
  destruct (tidy_script_ends_well (delete_calls B U)
              (fun _ _ => I) (fun _ => I) repr
              ("Deleting iam-user " ++ U ++ " for bucket " ++ B ++ ".")
              _ p [] Hbody) as (t & r & E & Hok & _).
  change (delete (Namespace B U) p [] = (([] ++ t)%list, r)) in E.
  rewrite E. exact Hok.
Qed.

(** X12: whatever the provider answers, a run of [delete_s3_user] calls
    nothing but listings and deletions of keys of [U], the listing of
    local policies, detachments from [U], deletions of policies, the
    deletion of [U], the bucket check on [B] and listings and deletions
    of objects of [B] under [U/]: it creates nothing, writes no file,
    and no call names another user or another bucket. *)
Theorem delete_calls_only (B U : string) (p : provider) :
  Forall (delete_calls B U) (fst (delete (Namespace B U) p [])).
Proof. apply delete_run_calls. Qed.

(** X13: a user that the provider does not know: the first call, the
    listing of keys, raises; the exception is reported and the run
    leaves with [exit(0)] without another call, so no policy, no user
    and no object is looked for. *)
Theorem delete_stops_at_unknown_user (B U : string) (p : provider) (e : exn) :
  (forall h, on_list_keys p h U = Raises e) ->
  let error_message :=
    "Error of type " ++ exn_type e ++ " occurred:" ++ repr (exn_str e) in
  delete (Namespace B U) p [] =
    ([ Log INFO ("Deleting iam-user " ++ U ++ " for bucket " ++ B ++ ".");
       Call (ListKeys U);
       Log ERROR error_message;
       Log ERROR ("Exiting. " ++ error_message);
       Print ("ERROR. Exiting. " ++ error_message) ],
     Exit 0).
Proof.
  intros Hkeys error_message.
  unfold delete, delete_s3_user, try_except_else, report_exception.
  autounfold with calls. repeat run_step. reflexivity.
Qed.

(** X14: the bucket is checked only after the user is gone.  With a
    bucket name that does not exist, a user without keys and policies
    is still deleted; then the run reports the missing bucket and
    leaves with [exit(0)], and no object is listed or deleted. *)
Theorem delete_removes_user_before_bucket_check (B U : string) (p : provider)
  (policies : list Policy.t) :
  (forall h, on_list_keys p h U = Returns []) ->
  (forall h, on_list_policies p h "Local" = Returns policies) ->
  forallb (fun policy =>
             negb (policy.(Policy.policy_name) =? user_policy_name U "list"))
          policies = true ->
  forallb (fun policy =>
             negb (policy.(Policy.policy_name) =? user_policy_name U "get"))
          policies = true ->
  (forall h, on_delete_user p h U = Returns tt) ->
  (forall h, on_bucket_exists p h B = Returns false) ->
  delete (Namespace B U) p [] =
    ((absences_tolerated user_policy_name B U
      ++ [ Log ERROR ("Exiting. Bucket does not exist: " ++ B);
           Print ("ERROR. Exiting. Bucket does not exist: " ++ B) ])%list,
     Exit 0).
Proof.
  intros Hkeys Hpolicies Hlist Hget Huser Hbucket.
  unfold delete, delete_s3_user, try_except_else, report_exception,
    absences_tolerated.
  autounfold with calls. run_on. cbv beta iota zeta. cbn [for_each]. run_on.
  erewrite bind_returns by (apply policy_search_misses; exact Hlist).
  run_on.
  erewrite bind_returns by (apply policy_search_misses; exact Hget).
  run_on. reflexivity.
Qed.

(** *** Which policies are removed *)

Lemma tidy_emits_at (ok : event -> Prop) p {A} (m : M A) :
  tidy ok m -> emits_at ok p m.
Proof. intros H h. destruct (H p h) as (t & E & Hok & _). eauto. Qed.

Lemma emits_at_bind (ok : event -> Prop) p {A C} (m : M A) (f : A -> M C) :
  emits_at ok p m -> (forall a, emits_at ok p (f a)) ->
  emits_at ok p (bind m f).
Proof.
  intros Hm Hf h. destruct (Hm h) as (t & E & Hok). unfold bind.
  destruct (m p h) as [h' [a|e|s]]; simpl in E; subst h'.
  - destruct (Hf a (h ++ t)%list) as (t' & E' & Hok').
    exists (t ++ t')%list. rewrite E', app_assoc. split; auto.
    apply Forall_app; auto.
  - exists t; auto.
  - exists t; auto.
Qed.

(** A call whose answer is known goes on with that answer. *)
Lemma emits_at_answered (ok : event -> Prop) p {A C} (o : op)
  (answer : provider -> history -> outcome A) (k : A -> M C) (v : A) :
  ok (Call o) -> (forall h, answer p h = Returns v) ->
  emits_at ok p (k v) -> emits_at ok p (bind (call o answer) k).
Proof.
  intros Ho Ha Hk h. rewrite (bind_call_returns o answer k p h v (Ha h)).
  destruct (Hk (h ++ [Call o])%list) as (t & E & Hok).
  exists (Call o :: t). rewrite E, <- app_assoc. split; auto.
Qed.

Lemma emits_at_for_fold_in (ok : event -> Prop) p {A S} (xs : list A) (s : S)
  (body : S -> A -> M S) :
  (forall s x, In x xs -> emits_at ok p (body s x)) ->
  emits_at ok p (for_fold xs s body).
Proof.
  revert s. induction xs as [|x xs IH]; intros s H; simpl.
  - intros h. exists []. simpl. now rewrite app_nil_r.
  - apply emits_at_bind.
    + apply H. now left.
    + intros s'. apply IH. intros s'' y Hy. apply H. now right.
Qed.

Lemma emits_at_try_except_else (ok : event -> Prop) p {A} (body : M A)
  (handler : exn -> M unit) (orelse : M unit) :
  emits_at ok p body -> (forall e, emits_at ok p (handler e)) ->
  emits_at ok p orelse -> emits_at ok p (try_except_else body handler orelse).
Proof.
  intros Hb Hh Ho h. destruct (Hb h) as (t & E & Hok).
  unfold try_except_else.
  destruct (body p h) as [h' [a|e|s]]; simpl in E; subst h'.
  - destruct (Ho (h ++ t)%list) as (t' & E' & Hok').
    exists (t ++ t')%list. rewrite E', app_assoc. split; auto.
    apply Forall_app; auto.
  - destruct (Hh e (h ++ t)%list) as (t' & E' & Hok').
    exists (t ++ t')%list. rewrite E', app_assoc. split; auto.
    apply Forall_app; auto.
  - exists t; auto.
Qed.

(** One step of a proof that nothing but the allowed policies is
    removed, for the parts of the run that remove none. *)
Ltac quiet_step :=
  first [ tidy_step | solve [cbv [removes_only]; auto] ].

(** X15: when the listing of local policies returns [policies], every
    detachment and every deletion of a policy in the run concerns a
    policy of that listing whose name is the user's list name or get
    name, and every detachment is from [U]; no other policy of the
    account is touched. *)
Theorem delete_removes_only_named_policies (B U : string) (p : provider)
  (policies : list Policy.t) :
  (forall h, on_list_policies p h "Local" = Returns policies) ->
  Forall (removes_only U (named (user_policy_name U "list")
                                (user_policy_name U "get") policies))
         (fst (delete (Namespace B U) p [])).
Proof.
  intros Hlisting.
  set (ok := removes_only U (named (user_policy_name U "list")
                                   (user_policy_name U "get") policies)).
  assert (Hsearch : forall wanted,
             wanted = user_policy_name U "list"
             \/ wanted = user_policy_name U "get" ->
             emits_at ok p
               (found_policy <-
                  for_fold policies false (fun found_policy policy =>
                    if policy.(Policy.policy_name) =? wanted then
                      logger_info ("Deleting policy " ++ wanted
                                   ++ " for user " ++ U ++ ".") ;;
                      detach_policy U policy.(Policy.arn) ;;
                      delete_policy policy.(Policy.arn) ;;
                      ret true
                    else ret found_policy) ;;
                when (negb found_policy)
                  (logger_warning ("Cannot find policy to remove: "
                                   ++ wanted ++ ".")))).
  { intros wanted Hwanted. apply emits_at_bind.
    - apply emits_at_for_fold_in. intros found policy Hin.
      destruct (Policy.policy_name policy =? wanted) eqn:Ename.
      + assert (Hallowed : In (Policy.arn policy)
                  (map Policy.arn (named (user_policy_name U "list")
                                         (user_policy_name U "get") policies))).
        { apply in_map. apply filter_In. split; [exact Hin|].
          apply String.eqb_eq in Ename. apply orb_true_iff.
          destruct Hwanted as [<- | <-]; [left | right];
            now apply String.eqb_eq. }
        apply tidy_emits_at. autounfold with calls.
        repeat first [ tidy_step | solve [cbv [ok removes_only]; auto] ].
      + apply tidy_emits_at. unfold ok. repeat quiet_step.
    - intros found; cbv beta. apply tidy_emits_at. autounfold with calls.
      unfold ok. repeat quiet_step. }
  assert (Hrun : emits_at ok p (delete (Namespace B U))).
  { unfold delete, delete_s3_user. apply emits_at_bind.
    { apply tidy_emits_at. autounfold with calls. unfold ok.
      repeat quiet_step. }
    intros ?; cbv beta. apply emits_at_try_except_else.
    - apply emits_at_bind.
      { apply tidy_emits_at. autounfold with calls. unfold ok.
        repeat quiet_step. }
      intros keys; cbv beta. apply emits_at_bind.
      { apply tidy_emits_at. autounfold with calls. unfold ok.
        repeat quiet_step. }
      intros ?; cbv beta. unfold list_policies.
      apply (emits_at_answered ok p _ _ _ policies);
        [exact I | exact Hlisting |].
      cbv zeta. cbn [for_each]. apply emits_at_bind.
      { apply emits_at_bind; [apply Hsearch; now left|].
        intros ?; cbv beta.
        apply emits_at_bind; [apply Hsearch; now right|].
        intros ?; cbv beta. apply tidy_emits_at. unfold ok.
        repeat quiet_step. }
      intros ?; cbv beta. apply tidy_emits_at. autounfold with calls.
      unfold ok. repeat quiet_step.
    - intros e. apply tidy_emits_at. unfold report_exception.
      autounfold with calls. unfold ok. repeat quiet_step.
    - intros h. exists [Print "Success!"]. split; [reflexivity|].
      constructor; [exact I | constructor]. }
  destruct (Hrun []) as (t & E & Hok). rewrite E. exact Hok.
Qed.

(** *** The calls of a run that comes to its end *)

Lemma calls_app (h t : history) : calls (h ++ t)%list = (calls h ++ calls t)%list.
Proof.
  induction h as [|[o|l m|line|b] h IH]; simpl; auto. now rewrite IH.
Qed.

Lemma bind_raises {A C} (m : M A) (k : A -> M C) p h h' e :
  m p h = (h', Raise e) -> bind m k p h = (h', Raise e).
Proof. intros E. unfold bind. now rewrite E. Qed.

(** The loop over the keys, when it comes to its end, has deleted each
    key once, in the order of the listing, and printed nothing. *)
Lemma key_loop_calls (U : string) (keys : list Key.t) p h h' :
  for_each keys (fun key =>
    logger_info ("Deleting key " ++ key.(Key.id)
                 ++ " for user " ++ U ++ ".") ;;
    delete_key U key.(Key.id)) p h = (h', Val tt) ->
  calls h' = (calls h ++ map (fun key => DeleteKey U key.(Key.id)) keys)%list
  /\ printed h' = printed h.
Proof.
  revert h. induction keys as [|key keys IH]; intros h; simpl.
  - unfold ret. intros E. injection E as <-. now rewrite app_nil_r.
  - autounfold with calls. flat.
    ask Ed; [|discriminate].
    intros E. apply IH in E as [-> ->].
    rewrite !calls_app, !printed_app. cbn. rewrite !app_nil_r.
    now rewrite <- app_assoc.
Qed.

(** The search for the policies named [wanted], when it comes to its
    end, has detached and deleted each of them, in the order of the
    listing, and printed nothing. *)
Lemma policy_loop_calls (U wanted : string) (policies : list Policy.t)
  (found : bool) p h h' b :
  for_fold policies found (fun found_policy policy =>
    if policy.(Policy.policy_name) =? wanted then
      logger_info ("Deleting policy " ++ wanted
                   ++ " for user " ++ U ++ ".") ;;
      detach_policy U policy.(Policy.arn) ;;
      delete_policy policy.(Policy.arn) ;;
      ret true
    else ret found_policy) p h = (h', Val b) ->
  calls h' = (calls h ++ removals U wanted policies)%list
  /\ printed h' = printed h.
Proof.
  revert found h. induction policies as [|policy policies IH];
    intros found h; simpl.
  - unfold ret. intros E. injection E as <- _. now rewrite app_nil_r.
  - destruct (Policy.policy_name policy =? wanted).
    + autounfold with calls. flat.
      ask Edetach; [|discriminate]. flat.
      ask Edelete; [|discriminate]. flat.
      intros E. apply IH in E as [-> ->].
      rewrite !calls_app, !printed_app. cbn. rewrite !app_nil_r.
      now rewrite <- !app_assoc.
    + rewrite bind_ret. intros E. apply IH in E as [-> ->]. auto.
Qed.

(** The same for the whole step on keys, with its warning when there
    is no key. *)
Lemma keys_step_calls (U : string) (keys : list Key.t) p h h' :
  (match keys with
   | [] => logger_warning ("No access keys found for user " ++ U ++ ".")
   | _ :: _ =>
       for_each keys (fun key =>
         logger_info ("Deleting key " ++ key.(Key.id)
                      ++ " for user " ++ U ++ ".") ;;
         delete_key U key.(Key.id))
   end) p h = (h', Val tt) ->
  calls h' = (calls h ++ map (fun key => DeleteKey U key.(Key.id)) keys)%list
  /\ printed h' = printed h.
Proof.
  destruct keys as [|key keys].
  - unfold logger_warning, emit. intros E. injection E as <-.
    rewrite calls_app, printed_app. cbn. now rewrite !app_nil_r.
  - apply key_loop_calls.
Qed.

(** The same loops, with all that they add. *)
Lemma key_loop_events (U : string) (keys : list Key.t) p h h' :
  for_each keys (fun key =>
    logger_info ("Deleting key " ++ key.(Key.id)
                 ++ " for user " ++ U ++ ".") ;;
    delete_key U key.(Key.id)) p h = (h', Val tt) ->
  h' = (h ++ flat_map (fun key =>
                         [ Log INFO ("Deleting key " ++ key.(Key.id)
                                     ++ " for user " ++ U ++ ".");
                           Call (DeleteKey U key.(Key.id)) ]) keys)%list.
Proof.
  revert h. induction keys as [|key keys IH]; intros h; simpl.
  - unfold ret. intros E. injection E as <-. now rewrite app_nil_r.
  - autounfold with calls. flat.
    ask Ed; [|discriminate].
    intros E. apply IH in E as ->. now rewrite <- !app_assoc.
Qed.

Lemma keys_step_events (U : string) (keys : list Key.t) p h h' :
  (match keys with
   | [] => logger_warning ("No access keys found for user " ++ U ++ ".")
   | _ :: _ =>
       for_each keys (fun key =>
         logger_info ("Deleting key " ++ key.(Key.id)
                      ++ " for user " ++ U ++ ".") ;;
         delete_key U key.(Key.id))
   end) p h = (h', Val tt) ->
  h' = (h ++ key_events U keys)%list.
Proof.
  destruct keys as [|key keys].
  - unfold logger_warning, emit. intros E. now injection E as <-.
  - apply key_loop_events.
Qed.

Lemma policy_loop_events (U wanted : string) (policies : list Policy.t)
  (found : bool) p h h' b :
  for_fold policies found (fun found_policy policy =>
    if policy.(Policy.policy_name) =? wanted then
      logger_info ("Deleting policy " ++ wanted
                   ++ " for user " ++ U ++ ".") ;;
      detach_policy U policy.(Policy.arn) ;;
      delete_policy policy.(Policy.arn) ;;
      ret true
    else ret found_policy) p h = (h', Val b) ->
  h' = (h ++ flat_map (fun policy =>
                         if policy.(Policy.policy_name) =? wanted
                         then [ Log INFO ("Deleting policy " ++ wanted
                                          ++ " for user " ++ U ++ ".");
                                Call (DetachPolicy U policy.(Policy.arn));
                                Call (DeletePolicy policy.(Policy.arn)) ]
                         else []) policies)%list
  /\ b = found
         || existsb (fun policy => policy.(Policy.policy_name) =? wanted)
                    policies.
Proof.
  revert found h. induction policies as [|policy policies IH];
    intros found h; simpl.
  - unfold ret. intros E. injection E as <- <-.
    now rewrite app_nil_r, orb_false_r.
  - destruct (Policy.policy_name policy =? wanted).
    + autounfold with calls. flat.
      ask Edetach; [|discriminate]. flat.
      ask Edelete; [|discriminate]. flat.
      intros E. apply IH in E as [-> ->].
      rewrite <- !app_assoc. split; [reflexivity|].
      now rewrite orb_true_r.
    + rewrite bind_ret. intros E. apply IH in E as [-> ->]. auto.
Qed.

(** Taking the outcome of the next loop by cases. *)
Ltac through_fold E :=
  match goal with
  | |- context [bind (for_fold ?xs ?s ?body) ?k ?p ?h] =>
      let h' := fresh "h" in
      destruct (for_fold xs s body p h) as [h' [[|]|?|?]] eqn:E;
      [ erewrite (bind_returns _ k p h) by exact E
      | erewrite (bind_returns _ k p h) by exact E
      | erewrite (bind_raises _ k p h) by exact E
      | erewrite (bind_exits _ k p h) by exact E ]
  end.

Ltac through_each E :=
  match goal with
  | |- context [bind (for_each ?xs ?body) ?k ?p ?h] =>
      let h' := fresh "h" in
      destruct (for_each xs body p h) as [h' [[]|?|?]] eqn:E;
      [ erewrite (bind_returns _ k p h) by exact E
      | erewrite (bind_raises _ k p h) by exact E
      | erewrite (bind_exits _ k p h) by exact E ]
  end.

(** X16: a run that comes to its end, whatever provider it talked to,
    has made exactly these calls, in this order: the listing of the
    user's keys and the deletion of each key that the provider listed;
    the listing of the local policies and, first for the list name and
    then for the get name, the detachment and deletion of each policy of
    that name that the provider listed; the deletion of the user; the
    bucket check; the listing of the objects under [U/] and, if the
    provider listed any, their deletion under the same prefix.  The one
    line printed is [Success!]. *)
Theorem delete_success_calls (B U : string) (p : provider) :
  snd (delete (Namespace B U) p []) = Val tt ->
  exists (keys : list Key.t) (policies : list Policy.t) (objects : list string),
    on_list_keys p (at_list_keys B U) U = Returns keys /\
    on_list_policies p (at_list_policies B U keys) "Local" = Returns policies /\
    on_objects_filter p (at_objects_filter user_policy_name B U keys policies)
      B (U ++ "/") = Returns objects /\
    fst (delete (Namespace B U) p []) =
      deprovisioned user_policy_name B U keys policies objects /\
    calls (fst (delete (Namespace B U) p [])) =
      ([ListKeys U]
       ++ map (fun key => DeleteKey U key.(Key.id)) keys
       ++ [ListPolicies "Local"]
       ++ removals U (user_policy_name U "list") policies
       ++ removals U (user_policy_name U "get") policies
       ++ [DeleteUser U; BucketExists B; ObjectsFilter B (U ++ "/")]
       ++ match objects with
          | [] => []
          | _ :: _ => [ObjectsFilterDelete B (U ++ "/")]
          end)%list /\
    printed (fst (delete (Namespace B U) p [])) = ["Success!"].
Proof.
  unfold delete, delete_s3_user, try_except_else, report_exception.
  autounfold with calls. rewrite bind_emit. cbn [app].
  ask Ekeys; [|run_on; discriminate].
  cbn [app].
  match goal with
  | |- context [bind ?m ?k p [?first; Call (ListKeys U)]] =>
      destruct (m p [first; Call (ListKeys U)]) as [h1 [[]|?|?]] eqn:Estep;
      [ erewrite (bind_returns m k) by exact Estep
      | erewrite (bind_raises m k) by exact Estep; run_on; discriminate
      | erewrite (bind_exits m k) by exact Estep; discriminate ]
  end.
  pose proof (keys_step_calls _ _ _ _ _ Estep) as [Hcalls1 Hprinted1].
  apply keys_step_events in Estep as Hevents1.
  ask Epolicies; [|run_on; discriminate].
  cbv zeta. cbn [for_each]. flat.
  through_fold Elist; [ | | run_on; discriminate | discriminate ].
  all: pose proof (policy_loop_calls _ _ _ _ _ _ _ _ Elist)
         as [Hcalls2 Hprinted2].
  all: apply policy_loop_events in Elist as [Hevents2 Hfound2].
  all: cbn [negb when]; flat.
  all: through_fold Eget; [ | | run_on; discriminate | discriminate ].
  all: pose proof (policy_loop_calls _ _ _ _ _ _ _ _ Eget)
         as [Hcalls3 Hprinted3].
  all: apply policy_loop_events in Eget as [Hevents3 Hfound3].
  all: cbn [negb when]; flat.
  all: ask Euser; [|run_on; discriminate].
  all: flat; ask Ebucket; [|run_on; discriminate].
  all: match goal with v : bool |- _ => destruct v end;
         [|run_on; discriminate].
  all: cbn [negb when]; flat; ask Eobjects; [|run_on; discriminate].
  all: match goal with
       | |- context [Datatypes.length ?l] => destruct l as [|object objects]
       end; cbn [Datatypes.length Nat.ltb Nat.leb].
  all: try (rewrite bind_emit; unfold call;
            match goal with
            | |- context [on_objects_filter_delete ?q ?h ?b ?x] =>
                destruct (on_objects_filter_delete q h b x) as [[]|?]
            end; [|run_on; discriminate]).
  all: unfold print, emit; cbn [fst snd]; intros _.
  all: match goal with
       | Ek : on_list_keys _ _ _ = Returns ?ks,
         Ep : on_list_policies _ _ _ = Returns ?ps,
         Eo : on_objects_filter _ _ _ _ = Returns ?os |- _ =>
           exists ks, ps, os
       end.
  all: split; [exact Ekeys|].
  all: cbn [orb] in Hfound2, Hfound3.
  all: unfold deprovisioned, at_objects_filter, at_list_policies,
         at_list_keys, removal_events; rewrite <- Hfound2, <- Hfound3.
  all: split; [|split; [|split; [|split]]].
  all: lazymatch goal with
       | |- calls _ = _ =>
           repeat first [ rewrite calls_app | rewrite Hcalls3
                        | rewrite Hcalls2 | rewrite Hcalls1 ];
           cbn [calls app]; rewrite ?app_nil_r, <- ?app_assoc; reflexivity
       | |- printed _ = _ =>
           repeat first [ rewrite printed_app | rewrite Hprinted3
                        | rewrite Hprinted2 | rewrite Hprinted1 ];
           reflexivity
       | |- on_list_policies _ _ _ = _ =>
           rewrite Hevents1 in Epolicies; exact Epolicies
       | |- on_objects_filter _ _ _ _ = _ =>
           rewrite Hevents3, Hevents2, Hevents1 in Eobjects;
           rewrite ?app_nil_r, <- ?app_assoc in Eobjects;
           rewrite ?app_nil_r, <- ?app_assoc; exact Eobjects
       | |- _ =>
           rewrite Hevents3, Hevents2, Hevents1;
           rewrite ?app_nil_r, <- ?app_assoc; reflexivity
       end.
Qed.

End MoreDeleteRuns.

(** ** The further theorems at work *)

Lemma create_stops_at_invalid_name_witness :
  is_valid_user_name "dave smith" = false /\
  create_s3_user dashed_policy_name quoted elided
    (Namespace "photos" "dave smith") (steady true [] [] [] []) []
  = ([ Log INFO "Creating iam-user dave smith for bucket photos";
       Call (BucketExists "photos");
       Log ERROR "Exiting. Invalid user name: dave smith. Only letters, numbers, underscores, and dashes are allowed.";
       Print "ERROR. Exiting. Invalid user name: dave smith. Only letters, numbers, underscores, and dashes are allowed." ],
     Exit 0).
Proof.
  split; [reflexivity|].
  apply (create_stops_at_invalid_name dashed_policy_name quoted elided
           "photos" "dave smith" (steady true [] [] [] []));
    reflexivity.
Defined.

Lemma create_leaves_user_when_policy_exists_witness :
  existsb (fun policy => dashed_policy_name "dave" "list"
                         =? policy.(Policy.policy_name)) [dave_list] = true /\
  calls (fst (create_s3_user dashed_policy_name quoted elided
                (Namespace "photos" "dave")
                (steady true [] [dave_list] [] []) []))
  = [ BucketExists "photos"; ListUsers; CreateUser "dave";
      ListPolicies "Local" ].
Proof.
  split; [reflexivity|].
  rewrite (create_leaves_user_when_policy_exists dashed_policy_name quoted
             elided "photos" "dave" (steady true [] [dave_list] [] [])
             [] {| User.name := "dave"; User.user_name := "dave" |}
             [dave_list]
             (fun _ => eq_refl) eq_refl (fun _ => eq_refl) eq_refl
             (fun _ => eq_refl) (fun _ => eq_refl) eq_refl).
  reflexivity.
Defined.

Lemma create_reports_exception_witness :
  raised (without_keys (steady true [] [] [] []) limit_exceeded)
    (firstn 15 (fst (create_s3_user dashed_policy_name quoted elided
                       (Namespace "photos" "dave")
                       (without_keys (steady true [] [] [] []) limit_exceeded)
                       [])))
    (CreateKey "dave") = Some limit_exceeded /\
  snd (create_s3_user dashed_policy_name quoted elided
         (Namespace "photos" "dave")
         (without_keys (steady true [] [] [] []) limit_exceeded) [])
  = Exit 0.
Proof.
  split; [reflexivity|].
  refine (proj1 (create_reports_exception dashed_policy_name quoted elided
                   "photos" "dave"
                   (without_keys (steady true [] [] [] []) limit_exceeded)
                   (firstn 15 (fst (create_s3_user dashed_policy_name quoted
                      elided (Namespace "photos" "dave")
                      (without_keys (steady true [] [] [] []) limit_exceeded)
                      [])))
                   (skipn 16 (fst (create_s3_user dashed_policy_name quoted
                      elided (Namespace "photos" "dave")
                      (without_keys (steady true [] [] [] []) limit_exceeded)
                      [])))
                   (CreateKey "dave") limit_exceeded _ _));
    reflexivity.
Defined.

Lemma create_user_only_when_valid_witness :
  In (Call (CreateUser "dave"))
     (fst (create_s3_user dashed_policy_name quoted elided
             (Namespace "photos" "dave") (steady true [] [] [] []) [])) /\
  is_valid_user_name "dave" = true.
Proof.
  assert (H : In (Call (CreateUser "dave"))
     (fst (create_s3_user dashed_policy_name quoted elided
             (Namespace "photos" "dave") (steady true [] [] [] []) []))).
  { right. right. right. left. reflexivity. }
  split; [exact H|].
  exact (proj1 (proj2 (create_user_only_when_valid dashed_policy_name quoted
                         elided "photos" "dave" "dave"
                         (steady true [] [] [] []) H))).
Defined.

Lemma create_success_calls_witness :
  snd (create_s3_user dashed_policy_name quoted elided
         (Namespace "photos" "dave") (steady true [] [] [] []) []) = Val tt /\
  printed (fst (create_s3_user dashed_policy_name quoted elided
                  (Namespace "photos" "dave") (steady true [] [] [] []) []))
  = ["Success!"].
Proof.
  split; [reflexivity|].
  destruct (create_success_calls dashed_policy_name quoted elided
              "photos" "dave" (steady true [] [] [] []) eq_refl)
    as (user & list_policy & get_policy & key_pair
        & _ & _ & _ & _ & _ & _ & _ & Hprinted).
  exact Hprinted.
Defined.

Lemma delete_stops_at_unknown_user_witness :
  (forall h, on_list_keys (refusing no_such_entity) h "dave"
             = Raises no_such_entity) /\
  calls (fst (delete_s3_user dashed_policy_name quoted
                (Namespace "photos" "dave") (refusing no_such_entity) []))
  = [ListKeys "dave"].
Proof.
  split; [reflexivity|].
  rewrite (delete_stops_at_unknown_user dashed_policy_name quoted
             "photos" "dave" (refusing no_such_entity) no_such_entity
             (fun _ => eq_refl)).
  reflexivity.
Defined.

Lemma delete_removes_user_before_bucket_check_witness :
  (forall h, on_bucket_exists (steady false [dave] [audit] [] []) h "fotos"
             = Returns false) /\
  calls (fst (delete_s3_user dashed_policy_name quoted
                (Namespace "fotos" "dave")
                (steady false [dave] [audit] [] []) []))
  = [ ListKeys "dave"; ListPolicies "Local"; DeleteUser "dave";
      BucketExists "fotos" ].
Proof.
  split; [reflexivity|].
  rewrite (delete_removes_user_before_bucket_check dashed_policy_name quoted
             "fotos" "dave" (steady false [dave] [audit] [] []) [audit]
             (fun _ => eq_refl) (fun _ => eq_refl) eq_refl eq_refl
             (fun _ => eq_refl) (fun _ => eq_refl)).
  reflexivity.
Defined.

Lemma delete_removes_only_named_policies_witness :
  (forall h, on_list_policies
               (steady true [dave] [audit; dave_get; dave_list] [] []) h "Local"
             = Returns [audit; dave_get; dave_list]) /\
  Forall (removes_only "dave" [dave_get; dave_list])
         (fst (delete_s3_user dashed_policy_name quoted
                 (Namespace "photos" "dave")
                 (steady true [dave] [audit; dave_get; dave_list] [] []) [])).
Proof.
  split; [reflexivity|].
  exact (delete_removes_only_named_policies dashed_policy_name quoted
           "photos" "dave"
           (steady true [dave] [audit; dave_get; dave_list] [] [])
           [audit; dave_get; dave_list] (fun _ => eq_refl)).
Defined.

Lemma delete_success_calls_witness :
  snd (delete_s3_user dashed_policy_name quoted (Namespace "photos" "dave")
         (steady true [dave] [audit; dave_get; dave_list] [old_key]
                 ["dave/a.txt"]) []) = Val tt /\
  printed (fst (delete_s3_user dashed_policy_name quoted
                  (Namespace "photos" "dave")
                  (steady true [dave] [audit; dave_get; dave_list] [old_key]
                          ["dave/a.txt"]) []))
  = ["Success!"].
Proof.
  split; [reflexivity|].
  destruct (delete_success_calls dashed_policy_name quoted "photos" "dave"
              (steady true [dave] [audit; dave_get; dave_list] [old_key]
                      ["dave/a.txt"]) eq_refl)
    as (keys & policies & objects & _ & _ & _ & _ & _ & Hprinted).
  exact Hprinted.
Defined.

(** The calls of a whole removal: one key, the two policies among three,
    the user, and the objects under the user's prefix. *)
Example delete_dave :
  calls (fst (delete_s3_user dashed_policy_name quoted
                (Namespace "photos" "dave")
                (steady true [dave] [audit; dave_get; dave_list] [old_key]
                        ["dave/a.txt"]) []))
  = [ ListKeys "dave";
      DeleteKey "dave" "AKIAOLD";
      ListPolicies "Local";
      DetachPolicy "dave" "arn:aws:iam::1:policy/dave-list";
      DeletePolicy "arn:aws:iam::1:policy/dave-list";
      DetachPolicy "dave" "arn:aws:iam::1:policy/dave-get";
      DeletePolicy "arn:aws:iam::1:policy/dave-get";
      DeleteUser "dave";
      BucketExists "photos";
      ObjectsFilter "photos" "dave/";
      ObjectsFilterDelete "photos" "dave/" ].
Proof. reflexivity. Qed.
